(** * A CRUD facade over GORM: the resolvers of [graph/schema.resolvers.go]

    The repository exposes seven GraphQL resolvers, every one a short
    sequence of calls on a process-wide [*gorm.DB] handle
    ([github.com/jinzhu/gorm], the first major version of the library).

    The development has three layers:
    - [models] and [model]: the Go structs, field for field;
    - [gorm]: the relational store behind the handle (two tables with
      AUTO_INCREMENT primary keys and the column types [AutoMigrate] gives
      them, a connection that may fail on any statement) and the ORM calls
      the resolvers make, statement by statement, transactions included,
      with the semantics the library documents;
    - [graph]: the resolvers, line for line, in a state monad over the store.

    Go's [int] is rendered as [Z]: the resolvers do no arithmetic on
    identifiers, they only hand them to the store. *)

From Stdlib Require Import ZArith List Ascii String Bool Lia.
Import ListNotations.
Local Open Scope string_scope.
Local Open Scope list_scope.
Local Open Scope Z_scope.

(** ** models/models.go *)

Module models.

(** [type Todo struct { ID int; Text string; Done bool; UserID int; User User }]
    [type User struct { ID int; Name string; Todos []Todo }] *)
Inductive Todo : Type :=
| Build_Todo (ID : Z) (Text : string) (Done : bool) (UserID : Z) (User : User)
with User : Type :=
| Build_User (ID : Z) (Name : string) (Todos : list Todo).

Definition Todo_ID (t : Todo) : Z := let 'Build_Todo i _ _ _ _ := t in i.
Definition Todo_Text (t : Todo) : string := let 'Build_Todo _ x _ _ _ := t in x.
Definition Todo_Done (t : Todo) : bool := let 'Build_Todo _ _ d _ _ := t in d.
Definition Todo_UserID (t : Todo) : Z := let 'Build_Todo _ _ _ u _ := t in u.
Definition Todo_User (t : Todo) : User := let 'Build_Todo _ _ _ _ u := t in u.

Definition User_ID (u : User) : Z := let 'Build_User i _ _ := u in i.
Definition User_Name (u : User) : string := let 'Build_User _ n _ := u in n.
Definition User_Todos (u : User) : list Todo := let 'Build_User _ _ l := u in l.

(** Go's zero values: [models.User{}] and [models.Todo{}]. *)
Definition User_zero : User := Build_User 0 "" [].
Definition Todo_zero : Todo := Build_Todo 0 "" false 0 User_zero.

(** Field assignment, [todo.Text = v] and the like. *)
Definition set_Todo_ID (v : Z) (t : Todo) : Todo :=
  Build_Todo v (Todo_Text t) (Todo_Done t) (Todo_UserID t) (Todo_User t).
Definition set_Todo_Text (v : string) (t : Todo) : Todo :=
  Build_Todo (Todo_ID t) v (Todo_Done t) (Todo_UserID t) (Todo_User t).
Definition set_Todo_User (v : User) (t : Todo) : Todo :=
  Build_Todo (Todo_ID t) (Todo_Text t) (Todo_Done t) (Todo_UserID t) v.
Definition set_User_ID (v : Z) (u : User) : User :=
  Build_User v (User_Name u) (User_Todos u).

End models.

(** ** graph/model/models_gen.go *)

Module model.

Record EditTodo := { EditTodo_ID : Z; EditTodo_Text : string }.
Record FetchTodo := { FetchTodo_ID : Z }.
Record NewTodo := { NewTodo_Text : string; NewTodo_UserID : Z }.
Record NewUser := { NewUser_Name : string }.

End model.

(** ** The store and the ORM calls *)

Module gorm.
Import models.

(** Errors a call can leave in the [Error] field of the [*gorm.DB] it
    returns. [error] is Go's interface type, [None] its [nil]. *)
Inductive Error : Type :=
| ErrRecordNotFound
| ErrDuplicateEntry (key : Z)
| ErrColumn
| ErrDriver (msg : string).

Definition error : Type := option Error.

(** Rows of [todos(id, text, done, user_id)] and [users(id, name)], the
    tables [AutoMigrate] derives from the two structs. This version of the
    library creates no foreign-key constraint on [user_id]. *)
Record TodoRow := { todo_id : Z; todo_text : string; todo_done : bool; todo_user_id : Z }.
Record UserRow := { user_id : Z; user_name : string }.

(** A table: its rows in primary-key order (the order of the clustered
    index, which a scan without ORDER BY follows) and the next
    AUTO_INCREMENT value. *)
Record Table (R : Type) := { rows : list R; auto_increment : Z }.
Arguments rows {R} _.
Arguments auto_increment {R} _.

(** The columns [AutoMigrate] gives the fields of the two structs: [int]
    (32 bits, signed) for Go's [int], [varchar(255)] for [string] and
    [boolean] for [bool]. In MySQL's strict mode, its default, a statement
    that would store a value that does not fit its column fails with
    [ErrColumn] (errors 1264, out of range, and 1406, data too long) and
    stores nothing. The length of a [varchar] is counted in characters:
    the bytes of the UTF-8 string that are not continuation bytes. *)
Definition int_ok (z : Z) : bool := (-2147483648 <=? z) && (z <=? 2147483647).

Definition continuation (c : ascii) : bool :=
  let 'Ascii _ _ _ _ _ _ b6 b7 := c in b7 && negb b6.

Fixpoint chars (s : string) : nat :=
  match s with
  | EmptyString => 0%nat
  | String c s' => ((if continuation c then 0 else 1) + chars s')%nat
  end.

Definition varchar_ok (s : string) : bool := (chars s <=? 255)%nat.

Definition TodoRow_ok (r : TodoRow) : bool :=
  int_ok (todo_id r) && varchar_ok (todo_text r) && int_ok (todo_user_id r).
Definition UserRow_ok (r : UserRow) : bool :=
  int_ok (user_id r) && varchar_ok (user_name r).

(** The state behind the handle. [faults] scripts the connection: the
    n-th statement sent (START TRANSACTION, COMMIT and ROLLBACK included)
    fails with the n-th entry when that entry is an error, and is executed
    otherwise; past the end of the script every statement is executed. *)
Record Store := {
  todos : Table TodoRow;
  users : Table UserRow;
  faults : list error
}.

Definition with_todos (t : Table TodoRow) (s : Store) : Store :=
  {| todos := t; users := users s; faults := faults s |}.
Definition with_users (t : Table UserRow) (s : Store) : Store :=
  {| todos := todos s; users := t; faults := faults s |}.

(** *** Statements on one table *)

Section Statements.
Context {R : Type}.
Variable key : R -> Z.

(** INSERT: the row goes to its place in key order; a row with the same
    key already there is a duplicate-entry error. *)
Fixpoint insert_row (r : R) (l : list R) : option (list R) :=
  match l with
  | [] => Some [r]
  | x :: l' =>
      if key r <? key x then Some (r :: l)
      else if key r =? key x then None
      else option_map (cons x) (insert_row r l')
  end.

(** SELECT ... WHERE c ORDER BY key LIMIT 1 *)
Definition select_first (c : R -> bool) (l : list R) : option R := find c l.

(** SELECT ... WHERE c *)
Definition select_all (c : R -> bool) (l : list R) : list R := filter c l.

(** UPDATE ... SET f WHERE c *)
Definition update_rows (c : R -> bool) (f : R -> R) (l : list R) : list R :=
  map (fun r => if c r then f r else r) l.

(** DELETE ... WHERE c *)
Definition delete_rows (c : R -> bool) (l : list R) : list R :=
  filter (fun r => negb (c r)) l.

(** The row stored under a key, if any. *)
Definition lookup (k : Z) (l : list R) : option R := find (fun r => key r =? k) l.

(** The condition the ORM derives from the primary key of the value it
    is given: [id = k] when [k] is not the zero value, and no condition
    at all when it is. *)
Definition primary_condition (k : Z) (r : R) : bool :=
  if k =? 0 then true else key r =? k.

End Statements.

(** *** The state monad of the resolvers *)

Definition M (A : Type) : Type := Store -> A * Store.
Definition ret {A} (a : A) : M A := fun s => (a, s).
Definition bind {A B} (m : M A) (k : A -> M B) : M B :=
  fun s => let '(a, s') := m s in k a s'.

Declare Scope gorm_scope.
Delimit Scope gorm_scope with gorm.
Notation "x <- m ;; k" := (bind m (fun x => k))
  (at level 61, m at next level, right associativity) : gorm_scope.
Notation "' p <- m ;; k" := (bind m (fun x => let 'p := x in k))
  (at level 61, p pattern, m at next level, right associativity) : gorm_scope.
Local Open Scope gorm_scope.

(** Sending one statement: the connection answers with the next entry of
    the fault script. *)
Definition send : M error := fun s =>
  match faults s with
  | [] => (None, s)
  | e :: fs => (e, {| todos := todos s; users := users s; faults := fs |})
  end.

(** *** Transactions *)

(** What a transaction that did not commit leaves of a table: the rows it
    had before, and the AUTO_INCREMENT counter as the transaction moved it
    (InnoDB does not give allocated values back). *)
Definition restore_rows {R} (before after : Table R) : Table R :=
  {| rows := rows before; auto_increment := auto_increment after |}.

Definition rollback (before after : Store) : Store :=
  {| todos := restore_rows (todos before) (todos after);
     users := restore_rows (users before) (users after);
     faults := faults after |}.

(** The library runs the statement of [Create], [Update] and [Delete]
    between START TRANSACTION and COMMIT. When the transaction cannot be
    started the statement is not sent and [unchanged] is what the caller's
    struct holds; when the statement fails ROLLBACK is sent, its outcome
    ignored; when COMMIT fails its error is the error of the call and the
    rows are those from before the transaction, the struct keeping what
    the statement wrote into it. *)
Definition in_transaction {A} (stmt : M (A * error)) (unchanged : A) : M (A * error) :=
  b <- send ;;
  match b with
  | Some _ => ret (unchanged, b)
  | None => fun s =>
      let '((a, e), s1) := stmt s in
      match e with
      | Some _ => let '(_, s2) := send s1 in ((a, e), s2)
      | None =>
          let '(c, s2) := send s1 in
          match c with
          | Some _ => ((a, c), rollback s s2)
          | None => ((a, None), s2)
          end
      end
  end.

(** *** The handle *)

(** What a call chain accumulates on the handle before the finishing call:
    the value given to [Model] and the associations named by [Preload]. *)
Record DB := { Value : Todo; preload : list string }.

Definition Model (value : Todo) (h : DB) : DB :=
  {| Value := value; preload := preload h |}.
Definition Preload (column : string) (h : DB) : DB :=
  {| Value := Value h; preload := preload h ++ [column] |}.
Definition preloads (column : string) (h : DB) : bool :=
  existsb (String.eqb column) (preload h).

(** Scanning a row into a struct fills the column fields and leaves the
    association field as it was. *)
Definition scan_Todo (r : TodoRow) (out : Todo) : Todo :=
  Build_Todo (todo_id r) (todo_text r) (todo_done r) (todo_user_id r) (Todo_User out).
Definition scan_User (r : UserRow) (out : User) : User :=
  Build_User (user_id r) (user_name r) (User_Todos out).

Definition row_of_Todo (id : Z) (t : Todo) : TodoRow :=
  {| todo_id := id; todo_text := Todo_Text t; todo_done := Todo_Done t;
     todo_user_id := Todo_UserID t |}.
Definition row_of_User (id : Z) (u : User) : UserRow :=
  {| user_id := id; user_name := User_Name u |}.

(** *** Create *)

(** The INSERT of [Create]. A zero primary key is left out of the
    statement, the table assigns the next AUTO_INCREMENT value and the
    library writes it back into the struct; a non-zero one is inserted as
    given. A row that does not fit the columns, or whose key is taken, is
    refused and nothing is stored. *)
Definition insert_Todo (value : Todo) : M (Todo * error) :=
  e <- send ;;
  match e with
  | Some _ => ret (value, e)
  | None => fun s =>
      let t := todos s in
      let id := if Todo_ID value =? 0 then auto_increment t else Todo_ID value in
      if negb (TodoRow_ok (row_of_Todo id value)) then ((value, Some ErrColumn), s)
      else
        match insert_row todo_id (row_of_Todo id value) (rows t) with
        | None => ((value, Some (ErrDuplicateEntry id)), s)
        | Some l =>
            ((set_Todo_ID id value, None),
             with_todos {| rows := l; auto_increment := Z.max (auto_increment t) (id + 1) |} s)
        end
  end.

Definition insert_User (value : User) : M (User * error) :=
  e <- send ;;
  match e with
  | Some _ => ret (value, e)
  | None => fun s =>
      let t := users s in
      let id := if User_ID value =? 0 then auto_increment t else User_ID value in
      if negb (UserRow_ok (row_of_User id value)) then ((value, Some ErrColumn), s)
      else
        match insert_row user_id (row_of_User id value) (rows t) with
        | None => ((value, Some (ErrDuplicateEntry id)), s)
        | Some l =>
            ((set_User_ID id value, None),
             with_users {| rows := l; auto_increment := Z.max (auto_increment t) (id + 1) |} s)
        end
  end.

(** [db.Create(&value)]: the INSERT in a transaction. The association
    fields are zero wherever the resolvers call [Create], so nothing is
    saved along with the row. *)
Definition Create_Todo (h : DB) (value : Todo) : M (Todo * error) :=
  in_transaction (insert_Todo value) value.

Definition Create_User (h : DB) (value : User) : M (User * error) :=
  in_transaction (insert_User value) value.

(** *** Preloading the [User] of a todo *)

(** The keys the preload query asks for: the non-zero [UserID]s. *)
Definition preload_keys (l : list Todo) : list Z :=
  filter (fun k => negb (k =? 0)) (map Todo_UserID l).

(** Every fetched user is assigned to the todos whose [UserID] it matches. *)
Definition assign_User (found : list UserRow) (t : Todo) : Todo :=
  fold_left
    (fun t u => if user_id u =? Todo_UserID t then set_Todo_User (scan_User u User_zero) t else t)
    found t.

(** [SELECT * FROM users WHERE id IN (keys)], sent only when there is a
    key to ask for. When the statement fails the todos keep the [User]
    they had. *)
Definition preload_User (l : list Todo) : M (list Todo * error) :=
  match preload_keys l with
  | [] => ret (l, None)
  | keys =>
      e <- send ;;
      match e with
      | Some _ => ret (l, e)
      | None => fun s =>
          let found := select_all (fun u => existsb (Z.eqb (user_id u)) keys) (rows (users s)) in
          ((map (assign_User found) l, None), s)
      end
  end.

(** *** First *)

(** [h.First(&out, where...)]: SELECT ... ORDER BY id LIMIT 1 under the
    primary-key condition of [out] and, when an integer is passed as
    [where], the condition [id = where]. No row: [out] is left as it was
    and the error is [ErrRecordNotFound]. The preload runs only after a
    query without error. *)
Definition First (h : DB) (out : Todo) (where_ : option Z) : M (Todo * error) :=
  e <- send ;;
  match e with
  | Some _ => ret (out, e)
  | None => fun s =>
      let c r := primary_condition todo_id (Todo_ID out) r
                 && match where_ with Some k => todo_id r =? k | None => true end in
      match select_first c (rows (todos s)) with
      | None => ((out, Some ErrRecordNotFound), s)
      | Some r =>
          let out := scan_Todo r out in
          if preloads "User" h then
            ('(l, e) <- preload_User [out] ;;
             ret (hd out l, e)) s
          else ((out, None), s)
      end
  end.

(** *** Find *)

(** [h.Find(&out)] on a slice of todos: SELECT * FROM todos, every row
    scanned into a fresh struct; a failed statement leaves the slice as
    it was. *)
Definition Find_Todos (h : DB) (out : list Todo) : M (list Todo * error) :=
  e <- send ;;
  match e with
  | Some _ => ret (out, e)
  | None => fun s =>
      let l := map (fun r => scan_Todo r Todo_zero) (select_all (fun _ => true) (rows (todos s))) in
      if preloads "User" h then preload_User l s else ((l, None), s)
  end.

Definition Find_Users (h : DB) (out : list User) : M (list User * error) :=
  e <- send ;;
  match e with
  | Some _ => ret (out, e)
  | None => fun s =>
      ((map (fun r => scan_User r User_zero) (select_all (fun _ => true) (rows (users s))), None), s)
  end.

(** *** Update *)

(** [h.Update(&attrs)] with a struct: only the fields of [attrs] that are
    not their zero value take part. They are first copied onto the value
    given to [Model], whose primary key then gives the WHERE clause, and
    they are the columns of the SET clause. With no such field, nothing is
    sent; otherwise the UPDATE runs in a transaction. The association field of [attrs] is zero wherever
    the resolvers call [Update], so nothing is saved along with the row. *)
Definition blank_Todo (t : Todo) : bool :=
  (Todo_ID t =? 0) && (Todo_Text t =? "")%string && negb (Todo_Done t) && (Todo_UserID t =? 0).

Definition assign_attrs (attrs : Todo) (r : TodoRow) : TodoRow :=
  {| todo_id := if Todo_ID attrs =? 0 then todo_id r else Todo_ID attrs;
     todo_text := if (Todo_Text attrs =? "")%string then todo_text r else Todo_Text attrs;
     todo_done := if Todo_Done attrs then true else todo_done r;
     todo_user_id := if Todo_UserID attrs =? 0 then todo_user_id r else Todo_UserID attrs |}.

(** The values of the SET clause fit their columns. *)
Definition attrs_ok (attrs : Todo) : bool :=
  int_ok (Todo_ID attrs) && varchar_ok (Todo_Text attrs) && int_ok (Todo_UserID attrs).

(** The UPDATE: when a row satisfies the WHERE clause and a value of the
    SET clause does not fit its column, the statement is refused and no
    row is written. *)
Definition update_Todos (pk : Z) (attrs : Todo) : M (unit * error) :=
  e <- send ;;
  match e with
  | Some _ => ret (tt, e)
  | None => fun s =>
      let t := todos s in
      if existsb (primary_condition todo_id pk) (rows t) && negb (attrs_ok attrs)
      then ((tt, Some ErrColumn), s)
      else
        ((tt, None),
         with_todos {| rows := update_rows (primary_condition todo_id pk) (assign_attrs attrs) (rows t);
                       auto_increment := auto_increment t |} s)
  end.

Definition Update (h : DB) (attrs : Todo) : M error :=
  if blank_Todo attrs then ret None
  else
    let pk := if Todo_ID attrs =? 0 then Todo_ID (Value h) else Todo_ID attrs in
    '(_, e) <- in_transaction (update_Todos pk attrs) tt ;;
    ret e.

(** *** Delete *)

(** The DELETE under the primary-key condition of [pk]; with a zero
    primary key the statement has no WHERE clause. *)
Definition delete_Todos (pk : Z) : M (unit * error) :=
  e <- send ;;
  match e with
  | Some _ => ret (tt, e)
  | None => fun s =>
      let t := todos s in
      ((tt, None),
       with_todos {| rows := delete_rows (primary_condition todo_id pk) (rows t);
                     auto_increment := auto_increment t |} s)
  end.

(** [h.Delete(&value)]: the DELETE on the primary key of [value], in a
    transaction. *)
Definition Delete (h : DB) (value : Todo) : M error :=
  '(_, e) <- in_transaction (delete_Todos (Todo_ID value)) tt ;;
  ret e.

End gorm.


(** ** mysql/connection.go *)

Module mysql.
Import gorm.

(** The store [Connection()] leaves behind on a server that had no [gqlgen]
    database: both tables exist and are empty, and their AUTO_INCREMENT
    counters start at 1. [fs] is what the connection will do later. *)
Definition Connection (fs : list error) : Store :=
  {| todos := {| rows := []; auto_increment := 1 |};
     users := {| rows := []; auto_increment := 1 |};
     faults := fs |}.

End mysql.

(** ** graph/schema.resolvers.go *)

Module graph.
Import models model gorm.
Local Open Scope gorm_scope.

(** [var db = mysql.Connection()]: the handle with nothing chained on it. *)
Definition db : DB := {| Value := Todo_zero; preload := [] |}.

(** What a resolver call comes to: it returns its pair [(value, error)], or
    it panics. *)
Inductive Result (A : Type) : Type :=
| Return (v : A) (err : error)
| Panic.
Arguments Return {A} v err.
Arguments Panic {A}.

Definition CreateTodo (input : NewTodo) : M (Result Todo) :=
  let todo := Build_Todo 0 (NewTodo_Text input) false (NewTodo_UserID input) User_zero in
  '(todo, _) <- Create_Todo db todo ;;
  ret (Return todo None).

Definition UpdateTodo (input : EditTodo) : M (Result Todo) :=
  let todo := Build_Todo (EditTodo_ID input) "" false 0 User_zero in
  '(todo, _) <- First db todo None ;;
  let todo := set_Todo_Text (EditTodo_Text input) todo in
  _ <- Update (Model Todo_zero db) todo ;;
  ret (Return todo None).

Definition DeleteTodo (input : Z) : M (Result Todo) :=
  let todo := Build_Todo input "" false 0 User_zero in
  '(todo, _) <- First db todo None ;;
  _ <- Delete db todo ;;
  ret (Return todo None).

Definition CreateUser (input : NewUser) : M (Result User) :=
  let user := Build_User 0 (NewUser_Name input) [] in
  '(user, _) <- Create_User db user ;;
  ret (Return user None).

Definition Todos : M (Result (list Todo)) :=
  let todos := [] in
  '(todos, _) <- Find_Todos (Preload "User" db) todos ;;
  ret (Return todos None).

Definition Users : M (Result (list User)) :=
  let users := [] in
  '(users, _) <- Find_Users db users ;;
  ret (Return users None).

(** [input] is a pointer and the schema lets it be null; [input.ID] is
    evaluated before [First] is called. *)
Definition Todo (input : option FetchTodo) : M (Result models.Todo) :=
  let todo := Todo_zero in
  match input with
  | None => ret Panic
  | Some input =>
      '(todo, _) <- First (Preload "User" db) todo (Some (FetchTodo_ID input)) ;;
      ret (Return todo None)
  end.

(** *** Requests *)

(** The seven operations of the schema, and the answer to each. *)
Inductive Request : Type :=
| createTodo (input : NewTodo)
| updateTodo (input : EditTodo)
| deleteTodo (input : Z)
| createUser (input : NewUser)
| todos_
| users_
| todo_ (input : option FetchTodo).

Inductive Response : Type :=
| OneTodo (r : Result models.Todo)
| OneUser (r : Result User)
| ManyTodos (r : Result (list models.Todo))
| ManyUsers (r : Result (list User)).

Definition fmap {A B} (f : A -> B) (m : M A) : M B := x <- m ;; ret (f x).

Definition serve (q : Request) : M Response :=
  match q with
  | createTodo input => fmap OneTodo (CreateTodo input)
  | updateTodo input => fmap OneTodo (UpdateTodo input)
  | deleteTodo input => fmap OneTodo (DeleteTodo input)
  | createUser input => fmap OneUser (CreateUser input)
  | todos_ => fmap ManyTodos Todos
  | users_ => fmap ManyUsers Users
  | todo_ input => fmap OneTodo (Todo input)
  end.

(** The store after a sequence of requests. *)
Definition serve_all (qs : list Request) (s : Store) : Store :=
  fold_left (fun s q => snd (serve q s)) qs s.

(** The error a response carries, when the resolver returned. *)
Definition response_error (r : Response) : option error :=
  match r with
  | OneTodo (Return _ e) | OneUser (Return _ e)
  | ManyTodos (Return _ e) | ManyUsers (Return _ e) => Some e
  | _ => None
  end.

End graph.

Import models model gorm graph.
Local Open Scope gorm_scope.

(** ** Well-formed stores *)

(** The keys of a table are strictly increasing and lie strictly between
    [lo] and [hi]. *)
Fixpoint ascending (lo : Z) (ks : list Z) (hi : Z) : bool :=
  match ks with
  | [] => lo <? hi
  | k :: ks' => (lo <? k) && ascending k ks' hi
  end.

(** Primary keys are positive, distinct, in order, and below the
    AUTO_INCREMENT counter: what a table filled through AUTO_INCREMENT
    inserts looks like. *)
Definition table_ok {R} (key : R -> Z) (t : Table R) : bool :=
  ascending 0 (map key (rows t)) (auto_increment t).

Definition wf (s : Store) : Prop :=
  table_ok todo_id (todos s) = true /\ table_ok user_id (users s) = true.

(** No failure is scripted for the connection. *)
Definition healthy (s : Store) : Prop := faults s = [].

(** The todo a stored row is read as, with its owner resolved against the
    users table. *)
Definition owner_of (us : list UserRow) (k : Z) : User :=
  match lookup user_id k us with
  | Some u => scan_User u User_zero
  | None => User_zero
  end.

Definition resolved (us : list UserRow) (r : TodoRow) : models.Todo :=
  Build_Todo (todo_id r) (todo_text r) (todo_done r) (todo_user_id r)
             (owner_of us (todo_user_id r)).

(** ** How a request can change a table *)

Section TableChange.
Context {R : Type}.
Variable key : R -> Z.

(** What may differ between a row and its edited version. *)
Variable frame : R -> R -> Prop.

(** The ways a resolver leaves a table: as it was; with the same rows and
    the AUTO_INCREMENT counter moved up (an insert that was not committed);
    with one row more, under the AUTO_INCREMENT key; with its rows edited
    in place, keys kept; with the rows whose key satisfies a condition
    removed. *)
Inductive table_change (t t' : Table R) : Prop :=
| unchanged : t' = t -> table_change t t'
| bumped :
    rows t' = rows t -> auto_increment t <= auto_increment t' -> table_change t t'
| inserted r :
    rows t' = rows t ++ [r] -> key r = auto_increment t ->
    auto_increment t' = auto_increment t + 1 -> table_change t t'
| edited f :
    rows t' = map f (rows t) -> auto_increment t' = auto_increment t ->
    (forall r, In r (rows t) -> key (f r) = key r /\ frame r (f r)) -> table_change t t'
| removed g :
    rows t' = delete_rows (fun r => g (key r)) (rows t) ->
    auto_increment t' = auto_increment t -> table_change t t'.

End TableChange.

(** An edit of a todo may change its text and nothing else. *)
Definition same_but_text (r r' : TodoRow) : Prop :=
  todo_id r' = todo_id r /\ todo_done r' = todo_done r /\ todo_user_id r' = todo_user_id r.

(** No resolver edits a user. *)
Definition same_user (r r' : UserRow) : Prop := r' = r.

(** The requests other than [updateTodo]. *)
Definition not_update (q : Request) : Prop :=
  match q with updateTodo _ => False | _ => True end.

(** ** Sample stores and runs *)

(** A store with one user and one todo, as left by [createUser] and
    [createTodo] on a fresh database. *)
Definition one_todo : Store :=
  snd (CreateTodo {| NewTodo_Text := "a"; NewTodo_UserID := 1 |}
         (snd (CreateUser {| NewUser_Name := "Jamie" |} (mysql.Connection [])))).

(** A fresh database whose connection fails on the next statement. *)
Definition broken : Store := mysql.Connection [Some (ErrDriver "invalid connection")].

(** A run that edits, creates, lists and deletes around todo 1. *)
Definition busy_requests : list Request :=
  [ updateTodo {| EditTodo_ID := 1; EditTodo_Text := "b" |};
    createTodo {| NewTodo_Text := "c"; NewTodo_UserID := 9 |};
    updateTodo {| EditTodo_ID := 0; EditTodo_Text := "d" |};
    todos_;
    deleteTodo 2 ].

(** One todo and one user, on a connection that fails once. *)
Definition one_todo_flaky : Store :=
  {| todos := todos one_todo; users := users one_todo;
     faults := [Some (ErrDriver "invalid connection")] |}.

(** A text of 256 characters, one more than a [varchar(255)] column
    takes. *)
Definition over_long : string := string_of_list_ascii (repeat "a"%char 256).

(** ** Connection behaviour *)

(** None of the next [n] statements fails. *)
Definition next_ok (n : nat) (fs : list error) : bool :=
  forallb (fun e => match e with None => true | Some _ => false end) (firstn n fs).

(** The load of [UpdateTodo] and [DeleteTodo] fails and the three
    statements after it (START TRANSACTION, the UPDATE or DELETE, COMMIT)
    are executed. *)
Definition load_fails (s : Store) : Prop :=
  exists e fs, faults s = Some e :: fs /\ next_ok 3 fs = true.

(** [m] sends at most [k] statements: it takes at most [k] entries off
    the front of the fault script. *)
Definition sends {A} (k : nat) (m : M A) : Prop :=
  forall s, exists n, (n <= k)%nat /\ faults (snd (m s)) = skipn n (faults s).

(** ** Facts about the statements *)

Section StatementFacts.
Context {R : Type}.
Variable key : R -> Z.

Lemma ascending_bounds lo l hi :
  ascending lo (map key l) hi = true -> lo < hi.
Proof.
  revert lo; induction l as [|x l IH]; simpl; intros lo H.
  - lia.
  - apply andb_true_iff in H as [H1 H2]. apply IH in H2. lia.
Qed.

Lemma ascending_In lo l hi r :
  ascending lo (map key l) hi = true -> In r l -> lo < key r < hi.
Proof.
  revert lo; induction l as [|x l IH]; simpl; intros lo H Hin; [contradiction|].
  apply andb_true_iff in H as [H1 H2].
  destruct Hin as [->|Hin].
  - apply ascending_bounds in H2. lia.
  - apply IH in H2; auto. lia.
Qed.

Lemma ascending_weaken lo l hi hi' :
  hi <= hi' -> ascending lo (map key l) hi = true -> ascending lo (map key l) hi' = true.
Proof.
  intros Hle; revert lo; induction l as [|x l IH]; simpl; intros lo H.
  - lia.
  - apply andb_true_iff in H as [H1 H2]. rewrite H1, (IH _ H2). reflexivity.
Qed.

Lemma ascending_lower lo lo' l hi :
  lo' <= lo -> ascending lo (map key l) hi = true -> ascending lo' (map key l) hi = true.
Proof.
  intros Hle. destruct l as [|x l]; simpl; intros H.
  - lia.
  - apply andb_true_iff in H as [H1 H2]. rewrite H2, andb_true_r. lia.
Qed.

Lemma ascending_filter p lo l hi :
  ascending lo (map key l) hi = true -> ascending lo (map key (filter p l)) hi = true.
Proof.
  revert lo; induction l as [|x l IH]; simpl; intros lo H; [assumption|].
  apply andb_true_iff in H as [H1 H2].
  destruct (p x); simpl.
  - rewrite H1, (IH _ H2). reflexivity.
  - apply IH. apply ascending_lower with (lo := key x); [lia | assumption].
Qed.

Lemma ascending_snoc lo l hi r hi' :
  ascending lo (map key l) hi = true -> hi <= key r -> key r < hi' ->
  ascending lo (map key (l ++ [r])) hi' = true.
Proof.
  revert lo; induction l as [|x l IH]; simpl; intros lo H Hle Hlt.
  - lia.
  - apply andb_true_iff in H as [H1 H2]. rewrite H1, (IH _ H2); auto.
Qed.

Lemma insert_row_snoc lo l hi r :
  ascending lo (map key l) hi = true -> hi <= key r ->
  insert_row key r l = Some (l ++ [r]).
Proof.
  revert lo; induction l as [|x l IH]; simpl; intros lo H Hle; [reflexivity|].
  apply andb_true_iff in H as [H1 H2].
  pose proof (ascending_bounds _ _ _ H2) as Hx.
  destruct (key r <? key x) eqn:E1; [lia|].
  destruct (key r =? key x) eqn:E2; [lia|].
  rewrite (IH _ H2 Hle). reflexivity.
Qed.

Lemma lookup_Some k l r : lookup key k l = Some r -> key r = k /\ In r l.
Proof.
  unfold lookup. intros H. apply find_some in H as [H1 H2]. split; [lia | assumption].
Qed.

Lemma lookup_app_absent k l r :
  key r <> k -> lookup key k (l ++ [r]) = lookup key k l.
Proof.
  intros Hne. unfold lookup. induction l as [|x l IH]; simpl.
  - destruct (key r =? k) eqn:E; [lia | reflexivity].
  - destruct (key x =? k); [reflexivity | assumption].
Qed.

Lemma lookup_out_of_range lo l hi k :
  ascending lo (map key l) hi = true -> k <= lo \/ hi <= k -> lookup key k l = None.
Proof.
  intros H Hk. destruct (lookup key k l) as [r|] eqn:E; [|reflexivity].
  apply lookup_Some in E as [E1 E2].
  pose proof (ascending_In _ _ _ _ H E2). lia.
Qed.

(** With a non-zero key the primary-key condition selects the row stored
    under that key. *)
Lemma select_first_primary k l :
  k <> 0 -> select_first (primary_condition key k) l = lookup key k l.
Proof.
  intros Hk. unfold select_first, lookup, primary_condition.
  destruct (k =? 0) eqn:E; [lia | reflexivity].
Qed.

(** A condition on the key alone either removes the row stored under [k]
    or leaves the answer to a lookup of [k] as it was. *)
Lemma lookup_delete_rows (g : Z -> bool) k l :
  lookup key k (delete_rows (fun r => g (key r)) l) =
  if g k then None else lookup key k l.
Proof.
  unfold lookup, delete_rows. induction l as [|x l IH]; simpl.
  - destruct (g k); reflexivity.
  - destruct (g (key x)) eqn:Eg; simpl; destruct (key x =? k) eqn:Ek.
    + assert (key x = k) as <- by lia. rewrite IH, Eg. reflexivity.
    + exact IH.
    + assert (key x = k) as <- by lia. rewrite Eg. reflexivity.
    + exact IH.
Qed.

Lemma delete_rows_absent k l :
  k <> 0 -> lookup key k l = None -> delete_rows (primary_condition key k) l = l.
Proof.
  intros Hk. unfold lookup, delete_rows, primary_condition.
  destruct (k =? 0) eqn:E; [lia|]. clear E.
  induction l as [|x l IH]; simpl; [reflexivity|].
  destruct (key x =? k); [discriminate|]. simpl. intros H. rewrite (IH H). reflexivity.
Qed.

End StatementFacts.

(** ** Facts about the ORM calls *)

Lemma send_healthy s : healthy s -> send s = (None, s).
Proof. unfold healthy, send. intros ->. reflexivity. Qed.

(** Unfolding a resolver down to the statements it sends, splitting on what
    the connection answers and on what the tables hold. *)
Lemma table_eq {R} (t t' : Table R) :
  rows t = rows t' -> auto_increment t = auto_increment t' -> t = t'.
Proof. destruct t, t'; simpl; congruence. Qed.

Lemma restore_rows_same {R} (t : Table R) : restore_rows t t = t.
Proof. destruct t. reflexivity. Qed.

Ltac unfold_calls :=
  unfold CreateTodo, UpdateTodo, DeleteTodo, CreateUser, Todos, Users, Todo,
    Create_Todo, Create_User, First, Find_Todos, Find_Users, Update, Delete,
    in_transaction, insert_Todo, insert_User, update_Todos, delete_Todos, rollback,
    preload_User, fmap, bind, ret, send, with_todos, with_users in *.

Ltac split_call :=
  match goal with
  | |- context [match faults ?s with _ => _ end] =>
      let F := fresh "F" in destruct (faults s) as [|[?|] ?] eqn:F; simpl
  | |- context [match ?fs with [] => _ | _ :: _ => _ end] =>
      is_var fs; destruct fs as [|[?|] ?]; simpl
  | |- context [match insert_row ?k ?r ?l with _ => _ end] =>
      destruct (insert_row k r l) eqn:?; simpl
  | |- context [match select_first ?c ?l with _ => _ end] =>
      destruct (select_first c l) eqn:?; simpl
  | |- context [match preload_keys ?l with _ => _ end] =>
      destruct (preload_keys l) eqn:?; simpl
  | |- context [if blank_Todo ?t then _ else _] =>
      destruct (blank_Todo t) eqn:?; simpl
  | |- context [if preloads ?c ?h then _ else _] =>
      destruct (preloads c h) eqn:?; simpl
  | |- context [if negb ?b then _ else _] =>
      destruct b eqn:?; simpl
  | |- context [if existsb ?c ?l && negb ?b then _ else _] =>
      destruct (existsb c l && negb b) eqn:?; simpl
  end.

Ltac run_calls := unfold_calls; simpl; repeat split_call.

(** ** The three queries change no table (C5) *)

Lemma First_tables h out w s :
  todos (snd (First h out w s)) = todos s /\ users (snd (First h out w s)) = users s.
Proof. run_calls; auto. Qed.

Lemma Todos_tables s :
  todos (snd (Todos s)) = todos s /\ users (snd (Todos s)) = users s.
Proof. run_calls; auto. Qed.

Lemma Users_tables s :
  todos (snd (Users s)) = todos s /\ users (snd (Users s)) = users s.
Proof. run_calls; auto. Qed.

Lemma Todo_tables input s :
  todos (snd (Todo input s)) = todos s /\ users (snd (Todo input s)) = users s.
Proof. destruct input; run_calls; auto. Qed.

(** C5. The three query operations, [Todos] (ListTodos), [Users] (ListUsers)
    and [Todo] (FetchTodo), have no side effect on the stored data: from
    every store, whatever the connection does and whatever the input, the
    todos table and the users table after the call are the tables before
    it, rows and AUTO_INCREMENT counters alike. *)
Theorem queries_leave_tables_unchanged :
  forall (s : Store),
    (todos (snd (Todos s)) = todos s /\ users (snd (Todos s)) = users s) /\
    (todos (snd (Users s)) = todos s /\ users (snd (Users s)) = users s) /\
    (forall input, todos (snd (Todo input s)) = todos s /\ users (snd (Todo input s)) = users s).
Proof.
  intros s. split; [apply Todos_tables | split; [apply Users_tables | intros; apply Todo_tables]].
Qed.

(** ** Each create writes to its own table only (C9) *)

Lemma CreateTodo_users input s : users (snd (CreateTodo input s)) = users s.
Proof. run_calls; rewrite ?restore_rows_same; auto. Qed.

Lemma CreateUser_todos input s : todos (snd (CreateUser input s)) = todos s.
Proof. run_calls; rewrite ?restore_rows_same; auto. Qed.

(** C9. From every store and for every input, [CreateTodo] leaves the users
    table as it was and [CreateUser] leaves the todos table as it was. *)
Theorem creates_write_their_own_table :
  forall (s : Store),
    (forall input, users (snd (CreateTodo input s)) = users s) /\
    (forall input, todos (snd (CreateUser input s)) = todos s).
Proof.
  intros s. split; intros input; [apply CreateTodo_users | apply CreateUser_todos].
Qed.

(** ** What the resolvers return, in terms of the calls they make *)

Lemma UpdateTodo_returns input s :
  fst (UpdateTodo input s) =
  Return (set_Todo_Text (EditTodo_Text input)
            (fst (fst (First db (Build_Todo (EditTodo_ID input) "" false 0 User_zero) None s))))
         None.
Proof.
  unfold UpdateTodo, bind.
  destruct (First _ _ _ s) as [[t e] s']. simpl.
  destruct (Update _ _ s'). reflexivity.
Qed.

Lemma UpdateTodo_store input s :
  snd (UpdateTodo input s) =
  let r := First db (Build_Todo (EditTodo_ID input) "" false 0 User_zero) None s in
  snd (Update (Model Todo_zero db) (set_Todo_Text (EditTodo_Text input) (fst (fst r))) (snd r)).
Proof.
  unfold UpdateTodo, bind.
  destruct (First _ _ _ s) as [[t e] s']. simpl.
  destruct (Update _ _ s'). reflexivity.
Qed.

Lemma DeleteTodo_returns input s :
  fst (DeleteTodo input s) =
  Return (fst (fst (First db (Build_Todo input "" false 0 User_zero) None s))) None.
Proof.
  unfold DeleteTodo, bind.
  destruct (First _ _ _ s) as [[t e] s']. simpl.
  destruct (Delete _ _ s'). reflexivity.
Qed.

Lemma DeleteTodo_store input s :
  snd (DeleteTodo input s) =
  let r := First db (Build_Todo input "" false 0 User_zero) None s in
  snd (Delete db (fst (fst r)) (snd r)).
Proof.
  unfold DeleteTodo, bind.
  destruct (First _ _ _ s) as [[t e] s']. simpl.
  destruct (Delete _ _ s'). reflexivity.
Qed.

Lemma Todo_returns input s :
  fst (Todo (Some input) s) =
  Return (fst (fst (First (Preload "User" db) Todo_zero (Some (FetchTodo_ID input)) s))) None.
Proof.
  unfold Todo, bind.
  destruct (First _ _ _ s) as [[t e] s']. reflexivity.
Qed.

(** ** What [First] loads *)

Lemma first_by_primary_key k l :
  select_first (fun r => primary_condition todo_id k r && true) l =
  select_first (primary_condition todo_id k) l.
Proof.
  unfold select_first. induction l as [|x l IH]; simpl; [reflexivity|].
  rewrite andb_true_r, IH. reflexivity.
Qed.

(** A non-zero primary key that is not stored: [out] comes back untouched,
    whatever the connection did. *)
Lemma First_miss out s :
  Todo_ID out <> 0 ->
  lookup todo_id (Todo_ID out) (rows (todos s)) = None ->
  fst (fst (First db out None s)) = out.
Proof.
  intros Hk Hl.
  assert (select_first (fun r => primary_condition todo_id (Todo_ID out) r && true)
            (rows (todos s)) = None) as Hs
    by (rewrite first_by_primary_key, select_first_primary; assumption).
  unfold First, bind, ret, send.
  destruct (faults s) as [|[e|] fs]; simpl; try rewrite Hs; reflexivity.
Qed.

(** A stored non-zero primary key on a healthy connection: the row is
    scanned into [out] and the store is as before. *)
Lemma First_hit out r s :
  healthy s -> Todo_ID out <> 0 ->
  lookup todo_id (Todo_ID out) (rows (todos s)) = Some r ->
  First db out None s = ((scan_Todo r out, None), s).
Proof.
  intros Hh Hk Hl.
  assert (select_first (fun r => primary_condition todo_id (Todo_ID out) r && true)
            (rows (todos s)) = Some r) as Hs
    by (rewrite first_by_primary_key, select_first_primary; assumption).
  unfold First, bind. rewrite (send_healthy _ Hh). simpl. rewrite Hs. reflexivity.
Qed.

(** The inline condition [id = k] with [k] not stored: the zero value comes
    back, whatever the connection did. *)
Lemma First_where_miss h k s :
  lookup todo_id k (rows (todos s)) = None ->
  fst (fst (First h Todo_zero (Some k) s)) = Todo_zero.
Proof.
  intros Hl. unfold First, bind, ret, send.
  unfold lookup in Hl.
  destruct (faults s) as [|[e|] fs]; simpl; unfold select_first;
    try rewrite Hl; reflexivity.
Qed.

(** ** Lookups that miss (C1) *)

(** C1, as amended. For every id that identifies no stored Todo, each of
    [UpdateTodo], [DeleteTodo] and [Todo] (FetchTodo) signals success: it
    returns a Todo with a nil error and reports no not-found error. [Todo]
    returns the zero-value Todo. For every such id other than 0,
    [DeleteTodo] returns a Todo whose only non-zero field is the id asked
    for, and [UpdateTodo] one whose only non-zero fields are that id and
    the new text: the struct the resolver declared, in which no row was
    loaded. What the two return for id 0 is not part of the claim. *)
Theorem lookups_that_miss :
  forall (s : Store) (id : Z),
    lookup todo_id id (rows (todos s)) = None ->
    fst (Todo (Some {| FetchTodo_ID := id |}) s) = Return Todo_zero None /\
    (exists t, fst (DeleteTodo id s) = Return t None) /\
    (forall text, exists t,
       fst (UpdateTodo {| EditTodo_ID := id; EditTodo_Text := text |} s) = Return t None) /\
    (id <> 0 ->
     fst (DeleteTodo id s) = Return (Build_Todo id "" false 0 User_zero) None /\
     forall text,
       fst (UpdateTodo {| EditTodo_ID := id; EditTodo_Text := text |} s)
       = Return (Build_Todo id text false 0 User_zero) None).
Proof.
  intros s id Hl. split; [|split; [|split; [|intros Hk; split; [|intros text]]]].
  - rewrite Todo_returns. simpl. rewrite First_where_miss by assumption. reflexivity.
  - rewrite DeleteTodo_returns. eexists. reflexivity.
  - intros text. rewrite UpdateTodo_returns. eexists. reflexivity.
  - rewrite DeleteTodo_returns, First_miss by assumption. reflexivity.
  - rewrite UpdateTodo_returns. simpl. rewrite First_miss by assumption. reflexivity.
Qed.

Lemma lookups_that_miss_witness :
  lookup todo_id 5 (rows (todos (mysql.Connection []))) = None /\
  fst (Todo (Some {| FetchTodo_ID := 5 |}) (mysql.Connection [])) = Return Todo_zero None /\
  fst (DeleteTodo 5 (mysql.Connection [])) = Return (Build_Todo 5 "" false 0 User_zero) None /\
  fst (UpdateTodo {| EditTodo_ID := 5; EditTodo_Text := "b" |} (mysql.Connection []))
  = Return (Build_Todo 5 "b" false 0 User_zero) None.
Proof.
  assert (H : lookup todo_id 5 (rows (todos (mysql.Connection []))) = None) by reflexivity.
  destruct (lookups_that_miss (mysql.Connection []) 5 H) as (H1 & _ & _ & H2).
  assert (H5 : 5 <> 0) by lia.
  destruct (H2 H5) as [H3 H4].
  exact (conj H (conj H1 (conj H3 (H4 "b")))).
Defined.

(** C1 as stated fails. On an empty store no Todo has id 5, yet
    [UpdateTodo] and [DeleteTodo] return a Todo that is not the zero value:
    it carries the id asked for (and the new text). With id 0, which no
    stored Todo has either, both return a stored Todo. *)
Lemma lookups_that_miss_nonzero_result :
  lookup todo_id 5 (rows (todos (mysql.Connection []))) = None /\
  fst (UpdateTodo {| EditTodo_ID := 5; EditTodo_Text := "b" |} (mysql.Connection []))
    <> Return Todo_zero None /\
  fst (DeleteTodo 5 (mysql.Connection [])) <> Return Todo_zero None /\
  lookup todo_id 0 (rows (todos one_todo)) = None /\
  fst (UpdateTodo {| EditTodo_ID := 0; EditTodo_Text := "b" |} one_todo)
    = Return (Build_Todo 1 "b" false 1 User_zero) None /\
  fst (DeleteTodo 0 one_todo) = Return (Build_Todo 1 "a" false 1 User_zero) None.
Proof.
  repeat split; try reflexivity; vm_compute; discriminate.
Qed.

(** ** Stored keys in a well-formed store *)

Lemma stored_todo_key s id r :
  wf s -> lookup todo_id id (rows (todos s)) = Some r ->
  todo_id r = id /\ 0 < id < auto_increment (todos s).
Proof.
  intros [Ht _] Hl. apply lookup_Some in Hl as [Hk Hin].
  pose proof (ascending_In todo_id _ _ _ _ Ht Hin). split; [assumption | lia].
Qed.

Lemma lookup_delete_primary k k' (l : list TodoRow) :
  lookup todo_id k' (delete_rows (primary_condition todo_id k) l) =
  if (if k =? 0 then true else k' =? k) then None else lookup todo_id k' l.
Proof. exact (lookup_delete_rows todo_id (fun x => if k =? 0 then true else x =? k) k' l). Qed.

(** ** Update returns the loaded record with the new text (C2) *)

(** C2. In a well-formed store on a healthy connection, for every stored
    Todo with identity [id], [UpdateTodo(id, newText)] returns without error
    a Todo with that id whose text is [newText] and whose done and userID
    are those of the stored row before the update: the record is loaded in
    full, one field is changed, and it is written back. *)
Theorem UpdateTodo_keeps_done_and_owner :
  forall (s : Store) (id : Z) (newText : string) (r : TodoRow),
    wf s -> healthy s ->
    lookup todo_id id (rows (todos s)) = Some r ->
    exists t,
      fst (UpdateTodo {| EditTodo_ID := id; EditTodo_Text := newText |} s) = Return t None /\
      Todo_ID t = id /\
      Todo_Text t = newText /\
      Todo_Done t = todo_done r /\
      Todo_UserID t = todo_user_id r.
Proof.
  intros s id newText r Hwf Hh Hl.
  destruct (stored_todo_key _ _ _ Hwf Hl) as [Hid Hpos].
  rewrite UpdateTodo_returns. simpl.
  rewrite (First_hit _ r) by (simpl; auto; lia).
  eexists; split; [reflexivity|]. simpl. auto.
Qed.

Lemma UpdateTodo_keeps_done_and_owner_witness :
  exists t,
    fst (UpdateTodo {| EditTodo_ID := 1; EditTodo_Text := "b" |} one_todo) = Return t None /\
    Todo_ID t = 1 /\ Todo_Text t = "b" /\ Todo_Done t = false /\ Todo_UserID t = 1.
Proof.
  apply (UpdateTodo_keeps_done_and_owner one_todo 1 "b"
           {| todo_id := 1; todo_text := "a"; todo_done := false; todo_user_id := 1 |}).
  - split; reflexivity.
  - reflexivity.
  - reflexivity.
Defined.

(** ** Create inserts a fresh row (C3) *)

Lemma in_transaction_healthy {A} (stmt : M (A * error)) (u : A) s :
  healthy s -> healthy (snd (stmt s)) -> in_transaction stmt u s = stmt s.
Proof.
  intros Hh Hs. unfold in_transaction, bind. rewrite (send_healthy _ Hh).
  destruct (stmt s) as [[a e] s1]. simpl in Hs. rewrite (send_healthy _ Hs).
  destruct e; reflexivity.
Qed.

Lemma CreateTodo_healthy input s :
  wf s -> healthy s ->
  varchar_ok (NewTodo_Text input) = true -> int_ok (NewTodo_UserID input) = true ->
  int_ok (auto_increment (todos s)) = true ->
  let id := auto_increment (todos s) in
  CreateTodo input s =
  (Return (Build_Todo id (NewTodo_Text input) false (NewTodo_UserID input) User_zero) None,
   with_todos {| rows := rows (todos s) ++ [{| todo_id := id; todo_text := NewTodo_Text input;
                                               todo_done := false;
                                               todo_user_id := NewTodo_UserID input |}];
                 auto_increment := id + 1 |} s).
Proof.
  intros [Ht _] Hh Htext Huid Hid id.
  pose proof (ascending_bounds todo_id _ _ _ Ht) as Hpos.
  assert (Hstmt : insert_Todo (Build_Todo 0 (NewTodo_Text input) false (NewTodo_UserID input)
                                 User_zero) s
                  = ((Build_Todo id (NewTodo_Text input) false (NewTodo_UserID input) User_zero,
                      None),
                     with_todos {| rows := rows (todos s) ++
                                     [{| todo_id := id; todo_text := NewTodo_Text input;
                                         todo_done := false;
                                         todo_user_id := NewTodo_UserID input |}];
                                   auto_increment := id + 1 |} s)).
  { subst id. unfold insert_Todo, bind. rewrite (send_healthy _ Hh).
    cbn [Todo_ID Z.eqb]. unfold TodoRow_ok at 1. cbn [row_of_Todo todo_id todo_text todo_user_id
      Todo_Text Todo_UserID Todo_Done]. rewrite Htext, Huid, Hid. cbn [andb negb].
    erewrite insert_row_snoc; [|exact Ht | simpl; lia].
    unfold set_Todo_ID, with_todos; simpl.
    replace (Z.max (auto_increment (todos s)) (auto_increment (todos s) + 1))
      with (auto_increment (todos s) + 1) by lia. reflexivity. }
  unfold CreateTodo, Create_Todo, bind.
  rewrite in_transaction_healthy;
    [rewrite Hstmt; reflexivity | exact Hh | rewrite Hstmt; exact Hh].
Qed.

Lemma CreateUser_healthy input s :
  wf s -> healthy s ->
  varchar_ok (NewUser_Name input) = true ->
  int_ok (auto_increment (users s)) = true ->
  let id := auto_increment (users s) in
  CreateUser input s =
  (Return (Build_User id (NewUser_Name input) []) None,
   with_users {| rows := rows (users s) ++ [{| user_id := id; user_name := NewUser_Name input |}];
                 auto_increment := id + 1 |} s).
Proof.
  intros [_ Hu] Hh Hname Hid id.
  pose proof (ascending_bounds user_id _ _ _ Hu) as Hpos.
  assert (Hstmt : insert_User (Build_User 0 (NewUser_Name input) []) s
                  = ((Build_User id (NewUser_Name input) [], None),
                     with_users {| rows := rows (users s) ++
                                     [{| user_id := id; user_name := NewUser_Name input |}];
                                   auto_increment := id + 1 |} s)).
  { subst id. unfold insert_User, bind. rewrite (send_healthy _ Hh).
    cbn [User_ID Z.eqb]. unfold UserRow_ok at 1. cbn [row_of_User user_id user_name User_Name].
    rewrite Hname, Hid. cbn [andb negb].
    erewrite insert_row_snoc; [|exact Hu | simpl; lia].
    unfold set_User_ID, with_users; simpl.
    replace (Z.max (auto_increment (users s)) (auto_increment (users s) + 1))
      with (auto_increment (users s) + 1) by lia. reflexivity. }
  unfold CreateUser, Create_User, bind.
  rewrite in_transaction_healthy;
    [rewrite Hstmt; reflexivity | exact Hh | rewrite Hstmt; exact Hh].
Qed.

(** C3, as amended. In a well-formed store on a healthy connection whose
    todos table has an id left, for every text of at most 255 characters
    and every owning-user id that fits a 32-bit signed integer, [CreateTodo]
    inserts a new row and returns without error a Todo with done = false,
    the given text, the given userID and an id > 0 that the table generated
    (its AUTO_INCREMENT value, stored under no row before); the todos table
    is the old one followed by the new row. No hypothesis relates the
    owning-user id to the users table: none is checked. *)
Theorem CreateTodo_inserts :
  forall (s : Store) (text : string) (userId : Z),
    wf s -> healthy s ->
    varchar_ok text = true -> int_ok userId = true ->
    int_ok (auto_increment (todos s)) = true ->
    let id := auto_increment (todos s) in
    let out := CreateTodo {| NewTodo_Text := text; NewTodo_UserID := userId |} s in
    fst out = Return (Build_Todo id text false userId User_zero) None /\
    id > 0 /\
    lookup todo_id id (rows (todos s)) = None /\
    rows (todos (snd out)) =
      rows (todos s) ++ [{| todo_id := id; todo_text := text; todo_done := false;
                            todo_user_id := userId |}].
Proof.
  intros s text userId Hwf Hh Htext Huid Hid id out. subst out.
  rewrite (CreateTodo_healthy {| NewTodo_Text := text; NewTodo_UserID := userId |} s)
    by assumption.
  destruct Hwf as [Ht _]. simpl. fold id. repeat split.
  - pose proof (ascending_bounds todo_id _ _ _ Ht). subst id. lia.
  - eapply lookup_out_of_range; [exact Ht | right; subst id; lia].
Qed.

Lemma CreateTodo_inserts_witness :
  fst (CreateTodo {| NewTodo_Text := "a"; NewTodo_UserID := 7 |} (mysql.Connection []))
    = Return (Build_Todo 1 "a" false 7 User_zero) None /\
  1 > 0 /\
  lookup todo_id 1 (rows (todos (mysql.Connection []))) = None /\
  rows (todos (snd (CreateTodo {| NewTodo_Text := "a"; NewTodo_UserID := 7 |} (mysql.Connection []))))
    = [] ++ [{| todo_id := 1; todo_text := "a"; todo_done := false; todo_user_id := 7 |}].
Proof.
  apply (CreateTodo_inserts (mysql.Connection []) "a" 7).
  - split; reflexivity.
  - reflexivity.
  - reflexivity.
  - reflexivity.
  - reflexivity.
Defined.

(** C3 as stated fails. On a fresh database with a healthy connection, a
    text of 256 characters does not fit the [varchar(255)] column and an
    owning-user id of 2^31 does not fit the [int] column: the INSERT is
    refused, no row is stored, and [CreateTodo] returns, with a nil error,
    a Todo whose id is 0, not a generated id > 0. *)
Lemma CreateTodo_refused_values :
  chars over_long = 256%nat /\
  fst (CreateTodo {| NewTodo_Text := over_long; NewTodo_UserID := 1 |} (mysql.Connection []))
    = Return (Build_Todo 0 over_long false 1 User_zero) None /\
  rows (todos (snd (CreateTodo {| NewTodo_Text := over_long; NewTodo_UserID := 1 |}
                      (mysql.Connection [])))) = [] /\
  fst (CreateTodo {| NewTodo_Text := "a"; NewTodo_UserID := 2147483648 |} (mysql.Connection []))
    = Return (Build_Todo 0 "a" false 2147483648 User_zero) None /\
  rows (todos (snd (CreateTodo {| NewTodo_Text := "a"; NewTodo_UserID := 2147483648 |}
                      (mysql.Connection [])))) = [].
Proof. repeat split; vm_compute; reflexivity. Qed.

(** ** Delete returns the record it loaded and removes the row (C4) *)

Lemma Delete_healthy value s :
  healthy s ->
  Delete db value s =
  (None, with_todos {| rows := delete_rows (primary_condition todo_id (Todo_ID value)) (rows (todos s));
                       auto_increment := auto_increment (todos s) |} s).
Proof.
  intros Hh.
  assert (Hstmt : delete_Todos (Todo_ID value) s
                  = ((tt, None),
                     with_todos {| rows := delete_rows (primary_condition todo_id (Todo_ID value))
                                             (rows (todos s));
                                   auto_increment := auto_increment (todos s) |} s))
    by (unfold delete_Todos, bind; rewrite (send_healthy _ Hh); reflexivity).
  unfold Delete, bind.
  rewrite in_transaction_healthy;
    [rewrite Hstmt; reflexivity | exact Hh | rewrite Hstmt; exact Hh].
Qed.

(** C4. In a well-formed store on a healthy connection, for every stored
    Todo with identity [id], [DeleteTodo(id)] returns without error the
    record as it was loaded before the DELETE statement ran (the id, text,
    done and userID of the stored row); afterwards no row is stored under
    [id], every other row is still there, and a following [Todo] (FetchTodo)
    for [id] returns the zero value, not the row. *)
Theorem DeleteTodo_returns_snapshot :
  forall (s : Store) (id : Z) (r : TodoRow),
    wf s -> healthy s ->
    lookup todo_id id (rows (todos s)) = Some r ->
    let s' := snd (DeleteTodo id s) in
    fst (DeleteTodo id s)
      = Return (Build_Todo id (todo_text r) (todo_done r) (todo_user_id r) User_zero) None /\
    lookup todo_id id (rows (todos s')) = None /\
    (forall k, k <> id -> lookup todo_id k (rows (todos s')) = lookup todo_id k (rows (todos s))) /\
    fst (Todo (Some {| FetchTodo_ID := id |}) s') = Return Todo_zero None.
Proof.
  intros s id r Hwf Hh Hl s'.
  destruct (stored_todo_key _ _ _ Hwf Hl) as [Hid Hpos].
  assert (Hs' : rows (todos s') = delete_rows (primary_condition todo_id id) (rows (todos s))).
  { subst s'. rewrite DeleteTodo_store. simpl.
    rewrite (First_hit _ r) by (simpl; auto; lia). simpl.
    rewrite Delete_healthy by assumption. simpl. rewrite Hid. reflexivity. }
  assert (Hgone : lookup todo_id id (rows (todos s')) = None).
  { rewrite Hs', lookup_delete_primary.
    destruct (id =? 0) eqn:E; [reflexivity|]. rewrite Z.eqb_refl. reflexivity. }
  repeat split.
  - rewrite DeleteTodo_returns, (First_hit _ r) by (simpl; auto; lia).
    unfold scan_Todo. simpl. rewrite Hid. reflexivity.
  - exact Hgone.
  - intros k Hk. rewrite Hs', lookup_delete_primary.
    destruct (id =? 0) eqn:E; [lia|]. destruct (k =? id) eqn:E'; [lia | reflexivity].
  - rewrite Todo_returns. simpl. rewrite First_where_miss by exact Hgone. reflexivity.
Qed.

Lemma DeleteTodo_returns_snapshot_witness :
  fst (DeleteTodo 1 one_todo) = Return (Build_Todo 1 "a" false 1 User_zero) None /\
  lookup todo_id 1 (rows (todos (snd (DeleteTodo 1 one_todo)))) = None /\
  (forall k, k <> 1 ->
     lookup todo_id k (rows (todos (snd (DeleteTodo 1 one_todo))))
     = lookup todo_id k (rows (todos one_todo))) /\
  fst (Todo (Some {| FetchTodo_ID := 1 |}) (snd (DeleteTodo 1 one_todo))) = Return Todo_zero None.
Proof.
  apply (DeleteTodo_returns_snapshot one_todo 1
           {| todo_id := 1; todo_text := "a"; todo_done := false; todo_user_id := 1 |}).
  - split; reflexivity.
  - reflexivity.
  - reflexivity.
Defined.

(** ** What a change of a table preserves *)

Section TableChanges.
Context {R : Type}.
Variable key : R -> Z.
Variable frame : R -> R -> Prop.
Hypothesis frame_refl : forall r, frame r r.

Lemma lookup_In lo l hi r :
  ascending lo (map key l) hi = true -> In r l -> lookup key (key r) l = Some r.
Proof.
  unfold lookup. revert lo; induction l as [|x l IH]; simpl; intros lo H Hin; [contradiction|].
  apply andb_true_iff in H as [H1 H2].
  destruct Hin as [->|Hin]; [rewrite Z.eqb_refl; reflexivity|].
  pose proof (ascending_In key _ _ _ _ H2 Hin).
  destruct (key x =? key r) eqn:E; [lia|]. eapply IH; eassumption.
Qed.

Lemma map_keys f l :
  (forall r, In r l -> key (f r) = key r) -> map key (map f l) = map key l.
Proof.
  induction l as [|x l IH]; simpl; intros H; [reflexivity|].
  rewrite H, IH; auto.
Qed.

Lemma lookup_map f k l :
  (forall r, In r l -> key (f r) = key r) ->
  lookup key k (map f l) = option_map f (lookup key k l).
Proof.
  unfold lookup. induction l as [|x l IH]; simpl; intros H; [reflexivity|].
  rewrite H by auto. destruct (key x =? k); [reflexivity|]. apply IH; auto.
Qed.

(** A change keeps the table well formed, never lowers the counter, and a
    key below the old counter that is stored afterwards was stored before,
    under a row that differs from the new one by [frame] at most. *)
Lemma table_change_ok t t' :
  table_ok key t = true -> table_change key frame t t' ->
  table_ok key t' = true /\
  auto_increment t <= auto_increment t' /\
  forall k r', k < auto_increment t -> lookup key k (rows t') = Some r' ->
               exists r, lookup key k (rows t) = Some r /\ frame r r'.
Proof.
  unfold table_ok. intros Hok [->|Hr Ha|r Hr Hk Ha|f Hr Ha Hf|g Hr Ha].
  - repeat split; [assumption | lia |]. intros k r' _ Hl. eauto.
  - rewrite Hr. repeat split; [|lia|].
    + eapply ascending_weaken; eassumption.
    + intros k r' _ Hl. eauto.
  - rewrite Hr, Ha. repeat split; [|lia|].
    + eapply ascending_snoc; [exact Hok | lia | lia].
    + intros k r' Hlt Hl. rewrite lookup_app_absent in Hl by lia. eauto.
  - rewrite Hr, Ha. repeat split; [|lia|].
    + rewrite map_keys; [assumption | intros; apply Hf; assumption].
    + intros k r' _ Hl. rewrite lookup_map in Hl by (intros; apply Hf; assumption).
      destruct (lookup key k (rows t)) as [r|] eqn:E; [|discriminate].
      injection Hl as <-. exists r. split; [reflexivity|].
      apply Hf. apply lookup_Some in E. tauto.
  - rewrite Hr, Ha. repeat split; [|lia|].
    + apply ascending_filter. assumption.
    + intros k r' _ Hl. rewrite lookup_delete_rows in Hl.
      destruct (g k); [discriminate|]. eauto.
Qed.

End TableChanges.

Lemma same_but_text_refl r : same_but_text r r.
Proof. repeat split. Qed.

Lemma same_but_text_trans r1 r2 r3 :
  same_but_text r1 r2 -> same_but_text r2 r3 -> same_but_text r1 r3.
Proof. unfold same_but_text. intuition congruence. Qed.


(** ** The change each resolver makes *)

Lemma First_loaded out s :
  let t := fst (fst (First db out None s)) in
  t = out \/
  exists r, select_first (primary_condition todo_id (Todo_ID out)) (rows (todos s)) = Some r /\
            t = scan_Todo r out.
Proof.
  unfold First, bind, ret, send.
  destruct (faults s) as [|[e|] fs]; simpl; auto;
    rewrite first_by_primary_key;
    (destruct (select_first _ (rows (todos s))) as [r|]; simpl; [right; eauto | left; reflexivity]).
Qed.

Lemma send_tables s :
  todos (snd (send s)) = todos s /\ users (snd (send s)) = users s.
Proof. unfold send. destruct (faults s); auto. Qed.

(** What a call in a transaction leaves of the tables: those from before,
    those the statement left, or the rows from before with the counters
    the statement left. *)
Lemma in_transaction_tables {A} (stmt : M (A * error)) (u : A) s :
  exists s0,
    todos s0 = todos s /\ users s0 = users s /\
    let s1 := snd (stmt s0) in
    let s' := snd (in_transaction stmt u s) in
    (todos s' = todos s /\ users s' = users s) \/
    (todos s' = todos s1 /\ users s' = users s1) \/
    (todos s' = restore_rows (todos s) (todos s1) /\
     users s' = restore_rows (users s) (users s1)).
Proof.
  unfold in_transaction, bind.
  destruct (send_tables s) as [Ht0 Hu0].
  destruct (send s) as [b s0]. simpl in Ht0, Hu0.
  exists s0. split; [exact Ht0 | split; [exact Hu0|]].
  destruct b as [e|]; [left; simpl; auto|].
  destruct (stmt s0) as [[a e] s1]. simpl.
  destruct (send_tables s1) as [Ht2 Hu2].
  destruct (send s1) as [c s2]. simpl in Ht2, Hu2.
  destruct e as [e|]; [right; left; simpl; auto|].
  destruct c as [c|]; simpl; [|right; left; auto].
  right; right. rewrite Ht0, Hu0, Ht2, Hu2. auto.
Qed.

Lemma update_Todos_tables pk attrs s :
  let s' := snd (update_Todos pk attrs s) in
  users s' = users s /\
  auto_increment (todos s') = auto_increment (todos s) /\
  (rows (todos s') = rows (todos s) \/
   rows (todos s') = update_rows (primary_condition todo_id pk) (assign_attrs attrs) (rows (todos s))).
Proof. run_calls; auto. Qed.

Lemma delete_Todos_tables pk s :
  let s' := snd (delete_Todos pk s) in
  users s' = users s /\
  auto_increment (todos s') = auto_increment (todos s) /\
  (rows (todos s') = rows (todos s) \/
   rows (todos s') = delete_rows (primary_condition todo_id pk) (rows (todos s))).
Proof. run_calls; auto. Qed.

Lemma Update_todos h attrs s :
  let s' := snd (Update h attrs s) in
  let pk := if Todo_ID attrs =? 0 then Todo_ID (Value h) else Todo_ID attrs in
  users s' = users s /\
  auto_increment (todos s') = auto_increment (todos s) /\
  (rows (todos s') = rows (todos s) \/
   rows (todos s') = update_rows (primary_condition todo_id pk) (assign_attrs attrs) (rows (todos s))).
Proof.
  cbv zeta. unfold Update. destruct (blank_Todo attrs); [simpl; auto|].
  set (pk := if Todo_ID attrs =? 0 then Todo_ID (Value h) else Todo_ID attrs).
  destruct (in_transaction_tables (update_Todos pk attrs) tt s) as (s0 & Ht0 & Hu0 & H).
  destruct (update_Todos_tables pk attrs s0) as (Hu1 & Ha1 & Hr1).
  cbv zeta in H. unfold bind.
  destruct (in_transaction (update_Todos pk attrs) tt s) as [[x e] s']. simpl in *.
  rewrite Ht0, Hu0 in *.
  destruct H as [[-> ->]|[[-> ->]|[-> ->]]]; simpl; auto.
  rewrite Hu1, restore_rows_same. auto.
Qed.

Lemma Delete_todos h value s :
  let s' := snd (Delete h value s) in
  users s' = users s /\
  auto_increment (todos s') = auto_increment (todos s) /\
  (rows (todos s') = rows (todos s) \/
   rows (todos s') = delete_rows (primary_condition todo_id (Todo_ID value)) (rows (todos s))).
Proof.
  cbv zeta. unfold Delete.
  destruct (in_transaction_tables (delete_Todos (Todo_ID value)) tt s) as (s0 & Ht0 & Hu0 & H).
  destruct (delete_Todos_tables (Todo_ID value) s0) as (Hu1 & Ha1 & Hr1).
  cbv zeta in H. unfold bind.
  destruct (in_transaction (delete_Todos (Todo_ID value)) tt s) as [[x e] s']. simpl in *.
  rewrite Ht0, Hu0 in *.
  destruct H as [[-> ->]|[[-> ->]|[-> ->]]]; simpl; auto.
  rewrite Hu1, restore_rows_same. auto.
Qed.

(** The INSERT with a zero primary key leaves the table as it was or adds
    one row under the counter. *)
Lemma insert_Todo_tables value s :
  table_ok todo_id (todos s) = true -> Todo_ID value = 0 ->
  let s' := snd (insert_Todo value s) in
  users s' = users s /\
  (todos s' = todos s \/
   exists r, rows (todos s') = rows (todos s) ++ [r] /\ todo_id r = auto_increment (todos s) /\
             auto_increment (todos s') = auto_increment (todos s) + 1).
Proof.
  intros Ht Hz. cbv zeta. unfold insert_Todo, bind, ret, send. rewrite Hz.
  change (0 =? 0) with true. cbv iota.
  pose proof (ascending_bounds todo_id _ _ _ Ht) as Hpos.
  destruct (faults s) as [|[e|] fs]; simpl; auto;
    (destruct (negb _); simpl; auto);
    (erewrite insert_row_snoc; [|exact Ht | simpl; lia]); simpl;
    (split; [reflexivity | right; eexists; split; [reflexivity | split; [reflexivity | lia]]]).
Qed.

Lemma insert_User_tables value s :
  table_ok user_id (users s) = true -> User_ID value = 0 ->
  let s' := snd (insert_User value s) in
  todos s' = todos s /\
  (users s' = users s \/
   exists r, rows (users s') = rows (users s) ++ [r] /\ user_id r = auto_increment (users s) /\
             auto_increment (users s') = auto_increment (users s) + 1).
Proof.
  intros Hu Hz. cbv zeta. unfold insert_User, bind, ret, send. rewrite Hz.
  change (0 =? 0) with true. cbv iota.
  pose proof (ascending_bounds user_id _ _ _ Hu) as Hpos.
  destruct (faults s) as [|[e|] fs]; simpl; auto;
    (destruct (negb _); simpl; auto);
    (erewrite insert_row_snoc; [|exact Hu | simpl; lia]); simpl;
    (split; [reflexivity | right; eexists; split; [reflexivity | split; [reflexivity | lia]]]).
Qed.

Lemma CreateTodo_change frame input s :
  wf s ->
  table_change todo_id frame (todos s) (todos (snd (CreateTodo input s))).
Proof.
  intros [Ht _]. unfold CreateTodo, Create_Todo.
  set (value := Build_Todo 0 (NewTodo_Text input) false (NewTodo_UserID input) User_zero).
  destruct (in_transaction_tables (insert_Todo value) value s) as (s0 & Ht0 & Hu0 & H).
  assert (Ht' : table_ok todo_id (todos s0) = true) by (rewrite Ht0; exact Ht).
  destruct (insert_Todo_tables value s0 Ht' eq_refl) as (Hu1 & Hr1).
  cbv zeta in H, Hr1. unfold bind.
  destruct (in_transaction (insert_Todo value) value s) as [[x e] s']. simpl in *.
  rewrite Ht0 in *.
  destruct H as [[-> _]|[[-> _]|[-> _]]].
  - apply unchanged. reflexivity.
  - destruct Hr1 as [->|(r & Hr & Hk & Ha)]; [apply unchanged; reflexivity|].
    eapply inserted; eassumption.
  - destruct Hr1 as [->|(r & Hr & Hk & Ha)].
    + apply unchanged, restore_rows_same.
    + apply bumped; simpl; [reflexivity | lia].
Qed.

Lemma CreateUser_change frame input s :
  wf s ->
  table_change user_id frame (users s) (users (snd (CreateUser input s))).
Proof.
  intros [_ Hu]. unfold CreateUser, Create_User.
  set (value := Build_User 0 (NewUser_Name input) []).
  destruct (in_transaction_tables (insert_User value) value s) as (s0 & Ht0 & Hu0 & H).
  assert (Hu' : table_ok user_id (users s0) = true) by (rewrite Hu0; exact Hu).
  destruct (insert_User_tables value s0 Hu' eq_refl) as (Ht1 & Hr1).
  cbv zeta in H, Hr1. unfold bind.
  destruct (in_transaction (insert_User value) value s) as [[x e] s']. simpl in *.
  rewrite Hu0 in *.
  destruct H as [[_ ->]|[[_ ->]|[_ ->]]].
  - apply unchanged. reflexivity.
  - destruct Hr1 as [->|(r & Hr & Hk & Ha)]; [apply unchanged; reflexivity|].
    eapply inserted; eassumption.
  - destruct Hr1 as [->|(r & Hr & Hk & Ha)].
    + apply unchanged, restore_rows_same.
    + apply bumped; simpl; [reflexivity | lia].
Qed.

(** Writing back attributes that are blank or already those of the row
    changes its text at most. *)
Lemma assign_attrs_same attrs r :
  Todo_ID attrs = 0 \/ Todo_ID attrs = todo_id r ->
  Todo_Done attrs = false \/ Todo_Done attrs = todo_done r ->
  Todo_UserID attrs = 0 \/ Todo_UserID attrs = todo_user_id r ->
  same_but_text r (assign_attrs attrs r).
Proof.
  intros Hi Hd Hu. unfold same_but_text, assign_attrs; simpl. repeat split.
  - destruct (Todo_ID attrs =? 0) eqn:E; lia.
  - destruct Hd as [->| ->]; [reflexivity | destruct (todo_done r); reflexivity].
  - destruct (Todo_UserID attrs =? 0) eqn:E; lia.
Qed.

Lemma UpdateTodo_change input s :
  wf s ->
  table_change todo_id same_but_text (todos s) (todos (snd (UpdateTodo input s))).
Proof.
  intros [Ht _]. rewrite UpdateTodo_store. cbv zeta.
  set (out := Build_Todo (EditTodo_ID input) "" false 0 User_zero).
  destruct (First_tables db out None s) as [Hft _].
  set (attrs := set_Todo_Text (EditTodo_Text input) (fst (fst (First db out None s)))).
  destruct (Update_todos (Model Todo_zero db) attrs (snd (First db out None s)))
    as (_ & Ha & [Hr|Hr]); cbv zeta in Ha, Hr; rewrite Hft in Hr, Ha.
  - apply unchanged, table_eq; assumption.
  - eapply edited; [exact Hr | exact Ha |].
    intros r Hin.
    assert (Hpk : (if Todo_ID attrs =? 0 then Todo_ID (Value (Model Todo_zero db))
                   else Todo_ID attrs) = Todo_ID attrs)
      by (change (Todo_ID (Value (Model Todo_zero db))) with 0;
          destruct (Todo_ID attrs =? 0) eqn:E; lia).
    rewrite Hpk.
    destruct (primary_condition todo_id (Todo_ID attrs) r) eqn:Ec;
      [|split; [reflexivity | apply same_but_text_refl]].
    assert (Hsame : same_but_text r (assign_attrs attrs r));
      [|split; [apply Hsame | exact Hsame]].
    unfold primary_condition in Ec.
    destruct (First_loaded out s) as [Hl|[r0 [Hs Hl]]]; cbv zeta in Hl;
      subst attrs; rewrite Hl in *; clear Hl; simpl in Ec.
    + apply assign_attrs_same; simpl; auto.
      destruct (EditTodo_ID input =? 0) eqn:E; lia.
    + apply find_some in Hs as [Hin0 _].
      pose proof (ascending_In todo_id _ _ _ _ Ht Hin0) as Hpos.
      destruct (todo_id r0 =? 0) eqn:E; [lia|].
      assert (r = r0) as ->.
      { pose proof (lookup_In todo_id _ _ _ _ Ht Hin) as L.
        pose proof (lookup_In todo_id _ _ _ _ Ht Hin0) as L0.
        assert (todo_id r = todo_id r0) as Hk by lia. rewrite Hk in L. congruence. }
      apply assign_attrs_same; simpl; auto.
Qed.

Lemma DeleteTodo_change frame input s :
  table_change todo_id frame (todos s) (todos (snd (DeleteTodo input s))).
Proof.
  rewrite DeleteTodo_store. cbv zeta.
  set (out := Build_Todo input "" false 0 User_zero).
  destruct (First_tables db out None s) as [Hft _].
  destruct (Delete_todos db (fst (fst (First db out None s)))
              (snd (First db out None s))) as (_ & Ha & [Hr|Hr]);
    cbv zeta in Ha, Hr; rewrite Hft in Hr, Ha.
  - apply unchanged, table_eq; assumption.
  - exact (removed todo_id frame _ _
             (fun x => if Todo_ID (fst (fst (First db out None s))) =? 0 then true
                       else x =? Todo_ID (fst (fst (First db out None s)))) Hr Ha).
Qed.

Lemma UpdateTodo_users input s : users (snd (UpdateTodo input s)) = users s.
Proof.
  rewrite UpdateTodo_store. cbv zeta.
  destruct (Update_todos (Model Todo_zero db)
              (set_Todo_Text (EditTodo_Text input)
                 (fst (fst (First db (Build_Todo (EditTodo_ID input) "" false 0 User_zero) None s))))
              (snd (First db (Build_Todo (EditTodo_ID input) "" false 0 User_zero) None s)))
    as (-> & _).
  apply First_tables.
Qed.

Lemma DeleteTodo_users input s : users (snd (DeleteTodo input s)) = users s.
Proof.
  rewrite DeleteTodo_store. cbv zeta.
  destruct (Delete_todos db
              (fst (fst (First db (Build_Todo input "" false 0 User_zero) None s)))
              (snd (First db (Build_Todo input "" false 0 User_zero) None s)))
    as (-> & _).
  apply First_tables.
Qed.

Lemma snd_fmap {A} (f : A -> Response) (m : M A) s : snd (fmap f m s) = snd (m s).
Proof. unfold fmap, bind, ret. destruct (m s). reflexivity. Qed.

Lemma fst_fmap {A} (f : A -> Response) (m : M A) s : fst (fmap f m s) = f (fst (m s)).
Proof. unfold fmap, bind, ret. destruct (m s). reflexivity. Qed.

(** Every request changes the todos table in one of the four ways, editing
    text at most. *)
Lemma serve_todos q s :
  wf s -> table_change todo_id same_but_text (todos s) (todos (snd (serve q s))).
Proof.
  intros Hwf. destruct q; simpl; rewrite snd_fmap.
  - apply CreateTodo_change, Hwf.
  - apply UpdateTodo_change, Hwf.
  - apply DeleteTodo_change.
  - apply unchanged, CreateUser_todos.
  - apply unchanged, Todos_tables.
  - apply unchanged, Users_tables.
  - apply unchanged, Todo_tables.
Qed.

Lemma serve_todos_not_update q s :
  not_update q -> wf s -> table_change todo_id eq (todos s) (todos (snd (serve q s))).
Proof.
  intros Hq Hwf. destruct q; simpl in *; try contradiction; rewrite snd_fmap.
  - apply CreateTodo_change, Hwf.
  - apply DeleteTodo_change.
  - apply unchanged, CreateUser_todos.
  - apply unchanged, Todos_tables.
  - apply unchanged, Users_tables.
  - apply unchanged, Todo_tables.
Qed.

Lemma serve_users q s :
  wf s -> table_change user_id same_user (users s) (users (snd (serve q s))).
Proof.
  intros Hwf. destruct q; simpl; rewrite snd_fmap.
  - apply unchanged, CreateTodo_users.
  - apply unchanged, UpdateTodo_users.
  - apply unchanged, DeleteTodo_users.
  - apply CreateUser_change, Hwf.
  - apply unchanged, Todos_tables.
  - apply unchanged, Users_tables.
  - apply unchanged, Todo_tables.
Qed.

(** ** Well-formedness is an invariant *)

Lemma wf_Connection fs : wf (mysql.Connection fs).
Proof. split; reflexivity. Qed.

Lemma wf_serve q s : wf s -> wf (snd (serve q s)).
Proof.
  intros Hwf. split.
  - eapply (table_change_ok todo_id same_but_text same_but_text_refl);
      [apply Hwf | apply serve_todos, Hwf].
  - eapply (table_change_ok user_id same_user (fun r => eq_refl));
      [apply Hwf | apply serve_users, Hwf].
Qed.

Lemma wf_serve_all qs s : wf s -> wf (serve_all qs s).
Proof.
  revert s; induction qs as [|q qs IH]; simpl; intros s Hwf; [assumption|].
  apply IH, wf_serve, Hwf.
Qed.

(** Every store reached from a fresh database is well formed. *)
Lemma reachable_wf fs qs : wf (serve_all qs (mysql.Connection fs)).
Proof. apply wf_serve_all, wf_Connection. Qed.

(** ** Done and owner never change (C6) *)

(** A key below the counter that is not stored is never stored again:
    deleted ids are not reused. *)
Lemma absent_stays_absent qs s id :
  wf s -> id < auto_increment (todos s) ->
  lookup todo_id id (rows (todos s)) = None ->
  lookup todo_id id (rows (todos (serve_all qs s))) = None.
Proof.
  revert s; induction qs as [|q qs IH]; simpl; intros s Hwf Hlt Hl; [assumption|].
  destruct (table_change_ok todo_id same_but_text same_but_text_refl _ _
              (proj1 Hwf) (serve_todos q s Hwf)) as [_ [Hle Hstep]].
  apply IH; [apply wf_serve, Hwf | lia |].
  destruct (lookup todo_id id (rows (todos (snd (serve q s))))) as [r'|] eqn:E; [|reflexivity].
  destruct (Hstep id r' Hlt E) as [r [Hr _]]. congruence.
Qed.

Section Sequences.
Variable frame : TodoRow -> TodoRow -> Prop.
Hypothesis frame_refl : forall r, frame r r.
Hypothesis frame_trans : forall r1 r2 r3, frame r1 r2 -> frame r2 r3 -> frame r1 r3.
Variable allowed : Request -> Prop.
Hypothesis allowed_step :
  forall q s, allowed q -> wf s -> table_change todo_id frame (todos s) (todos (snd (serve q s))).

(** Along a sequence of allowed requests, a todo stored at both ends
    differs by [frame] at most. *)
Lemma stored_todo_frame qs s id r r' :
  Forall allowed qs -> wf s ->
  lookup todo_id id (rows (todos s)) = Some r ->
  lookup todo_id id (rows (todos (serve_all qs s))) = Some r' ->
  frame r r'.
Proof.
  revert s r; induction qs as [|q qs IH]; simpl; intros s r Hall Hwf Hl Hl'.
  - assert (r' = r) as -> by congruence. apply frame_refl.
  - inversion Hall as [|? ? Hq Hqs]; subst.
    destruct (stored_todo_key _ _ _ Hwf Hl) as [_ Hlt].
    destruct (table_change_ok todo_id frame frame_refl _ _
                (proj1 Hwf) (allowed_step q s Hq Hwf)) as [_ [Hle Hstep]].
    destruct (lookup todo_id id (rows (todos (snd (serve q s))))) as [r1|] eqn:E.
    + destruct (Hstep id r1 (proj2 Hlt) E) as [r0 [Hr0 Hf]].
      assert (r0 = r) as -> by congruence.
      eapply frame_trans; [exact Hf|].
      eapply IH; [exact Hqs | apply wf_serve, Hwf | exact E | exact Hl'].
    + rewrite (absent_stays_absent qs _ id) in Hl'; [discriminate | apply wf_serve, Hwf | lia | exact E].
Qed.

End Sequences.

(** C6. From every well-formed store (every store reached from a fresh
    database is one) and along every sequence of requests, a Todo that is
    stored before the sequence and still stored after it has the done flag
    and the owning-user id it had: no operation changes them. Its text is
    the only field that can differ, and only if the sequence contains an
    [updateTodo]. *)
Theorem done_and_owner_never_change :
  forall (s : Store) (qs : list Request) (id : Z) (r r' : TodoRow),
    wf s ->
    lookup todo_id id (rows (todos s)) = Some r ->
    lookup todo_id id (rows (todos (serve_all qs s))) = Some r' ->
    todo_done r' = todo_done r /\
    todo_user_id r' = todo_user_id r /\
    (Forall not_update qs -> r' = r).
Proof.
  intros s qs id r r' Hwf Hl Hl'.
  assert (H : same_but_text r r').
  { eapply (stored_todo_frame same_but_text same_but_text_refl same_but_text_trans
              (fun _ => True)); [| |exact Hwf|exact Hl|exact Hl'].
    - intros q s' _ Hs'. apply serve_todos, Hs'.
    - apply Forall_forall. auto. }
  destruct H as [_ [Hd Hu]]. repeat split; [exact Hd | exact Hu |].
  intros Hall. symmetry.
  eapply (stored_todo_frame eq (fun r => eq_refl) (fun r1 r2 r3 => @eq_trans _ r1 r2 r3) not_update);
    [|exact Hall|exact Hwf|exact Hl|exact Hl'].
  intros q s' Hq Hs'. apply serve_todos_not_update; assumption.
Qed.

Lemma done_and_owner_never_change_witness :
  todo_done {| todo_id := 1; todo_text := "d"; todo_done := false; todo_user_id := 1 |}
    = todo_done {| todo_id := 1; todo_text := "a"; todo_done := false; todo_user_id := 1 |} /\
  todo_user_id {| todo_id := 1; todo_text := "d"; todo_done := false; todo_user_id := 1 |}
    = todo_user_id {| todo_id := 1; todo_text := "a"; todo_done := false; todo_user_id := 1 |} /\
  (Forall not_update busy_requests ->
   {| todo_id := 1; todo_text := "d"; todo_done := false; todo_user_id := 1 |}
   = {| todo_id := 1; todo_text := "a"; todo_done := false; todo_user_id := 1 |}).
Proof.
  apply (done_and_owner_never_change one_todo busy_requests 1).
  - split; reflexivity.
  - reflexivity.
  - reflexivity.
Defined.

(** ** Storage errors are dropped (C7) *)

(** C7, as amended. For every facade operation and whatever its storage
    calls do, failing ones included (a constraint violation, a lost
    connection), the resolver does not fail: when it returns, the error it
    returns is nil. The storage-driver error is dropped, it is neither
    returned to the caller nor translated. The one call that does not
    return is [Todo] with a null input, which panics before any storage
    call. *)
Theorem resolvers_return_nil_error :
  forall (q : Request) (s : Store),
    response_error (fst (serve q s)) = Some None \/
    (q = todo_ None /\ fst (serve q s) = OneTodo Panic).
Proof.
  intros q s. destruct q as [i|i|i|i| | |[i|]]; unfold serve; try rewrite fst_fmap.
  - left. unfold CreateTodo, bind. destruct (Create_Todo _ _ s) as [[t e] s']. reflexivity.
  - left. rewrite UpdateTodo_returns. reflexivity.
  - left. rewrite DeleteTodo_returns. reflexivity.
  - left. unfold CreateUser, bind. destruct (Create_User _ _ s) as [[t e] s']. reflexivity.
  - left. unfold Todos, bind. destruct (Find_Todos _ _ s) as [[t e] s']. reflexivity.
  - left. unfold Users, bind. destruct (Find_Users _ _ s) as [[t e] s']. reflexivity.
  - left. rewrite Todo_returns. reflexivity.
  - right. split; reflexivity.
Qed.

(** C7 as stated fails. The [Create] call of [CreateTodo] (at its first
    statement) and the SELECT of [Todo] fail with a driver error, and both
    resolvers return a nil error with the struct they built: the caller
    never sees the driver error. *)
Lemma storage_error_not_returned :
  snd (fst (Create_Todo db (Build_Todo 0 "a" false 1 User_zero) broken))
    = Some (ErrDriver "invalid connection") /\
  fst (CreateTodo {| NewTodo_Text := "a"; NewTodo_UserID := 1 |} broken)
    = Return (Build_Todo 0 "a" false 1 User_zero) None /\
  response_error (fst (serve (createTodo {| NewTodo_Text := "a"; NewTodo_UserID := 1 |}) broken))
    <> Some (Some (ErrDriver "invalid connection")) /\
  snd (fst (First (Preload "User" db) Todo_zero (Some 1) broken))
    = Some (ErrDriver "invalid connection") /\
  fst (Todo (Some {| FetchTodo_ID := 1 |}) broken) = Return Todo_zero None /\
  response_error (fst (serve (todo_ (Some {| FetchTodo_ID := 1 |})) broken))
    <> Some (Some (ErrDriver "invalid connection")).
Proof.
  repeat split; try reflexivity; vm_compute; discriminate.
Qed.

(** ** Deleting with id 0 (C10) *)

(** A non-zero id that is not stored: the DELETE matches no row. *)
Lemma DeleteTodo_miss_nonzero s id :
  id <> 0 -> lookup todo_id id (rows (todos s)) = None ->
  todos (snd (DeleteTodo id s)) = todos s /\ users (snd (DeleteTodo id s)) = users s.
Proof.
  intros Hk Hl. split; [|apply DeleteTodo_users].
  rewrite DeleteTodo_store. cbv zeta.
  set (out := Build_Todo id "" false 0 User_zero).
  rewrite (First_miss out s) by (simpl; assumption).
  destruct (First_tables db out None s) as [Hft _].
  destruct (Delete_todos db out (snd (First db out None s))) as (_ & Ha & [Hr|Hr]);
    cbv zeta in Ha, Hr; rewrite Hft in Hr, Ha.
  - apply table_eq; assumption.
  - simpl in Hr. rewrite delete_rows_absent in Hr by assumption.
    apply table_eq; assumption.
Qed.

(** C10, at the input where the code departs from it. No stored Todo has
    id 0, and [DeleteTodo(0)] should leave the tables alone. It does not:
    a zero primary key puts no condition on the SELECT of [First], which
    loads the first row of the table, and [Delete] then removes that row.
    The resolver returns the removed Todo with a nil error. *)
Theorem DeleteTodo_zero_removes_first_row :
  lookup todo_id 0 (rows (todos one_todo)) = None /\
  rows (todos one_todo)
    = [{| todo_id := 1; todo_text := "a"; todo_done := false; todo_user_id := 1 |}] /\
  fst (DeleteTodo 0 one_todo) = Return (Build_Todo 1 "a" false 1 User_zero) None /\
  rows (todos (snd (DeleteTodo 0 one_todo))) = [].
Proof. repeat split. Qed.

(** ** Listing todos with their owner (C8) *)

Lemma select_all_rows {R} (l : list R) : select_all (fun _ => true) l = l.
Proof. unfold select_all. induction l; simpl; congruence. Qed.

Lemma lookup_select_all (g : Z -> bool) k (l : list UserRow) :
  lookup user_id k (select_all (fun u => g (user_id u)) l) =
  if g k then lookup user_id k l else None.
Proof.
  unfold lookup, select_all. induction l as [|x l IH]; simpl.
  - destruct (g k); reflexivity.
  - destruct (g (user_id x)) eqn:Eg; simpl; destruct (user_id x =? k) eqn:Ek.
    + assert (user_id x = k) as <- by lia. rewrite Eg. reflexivity.
    + exact IH.
    + assert (user_id x = k) as <- by lia. rewrite IH, Eg. reflexivity.
    + exact IH.
Qed.

Lemma assign_User_no_match found t :
  (forall u, In u found -> user_id u <> Todo_UserID t) -> assign_User found t = t.
Proof.
  unfold assign_User. induction found as [|u found IH]; simpl; intros H; [reflexivity|].
  destruct (user_id u =? Todo_UserID t) eqn:E.
  - exfalso. apply (H u); [auto | lia].
  - apply IH. intros; apply H; auto.
Qed.

(** Over users with distinct keys, the assignment loop gives a todo the
    user stored under its [UserID], if there is one. *)
Lemma assign_User_cons u found t :
  assign_User (u :: found) t =
  assign_User found
    (if user_id u =? Todo_UserID t then set_Todo_User (scan_User u User_zero) t else t).
Proof. reflexivity. Qed.

Lemma assign_User_lookup lo found hi t :
  ascending lo (map user_id found) hi = true ->
  assign_User found t =
  match lookup user_id (Todo_UserID t) found with
  | Some u => set_Todo_User (scan_User u User_zero) t
  | None => t
  end.
Proof.
  revert lo t; induction found as [|u found IH]; intros lo t H; [reflexivity|].
  simpl in H. apply andb_true_iff in H as [H1 H2].
  rewrite assign_User_cons. unfold lookup. cbn [find].
  destruct (user_id u =? Todo_UserID t) eqn:E.
  - apply assign_User_no_match. intros v Hv. simpl.
    pose proof (ascending_In user_id _ _ _ _ H2 Hv). lia.
  - apply (IH _ _ H2).
Qed.

Lemma preload_keys_In l t :
  In t l -> Todo_UserID t <> 0 -> existsb (Z.eqb (Todo_UserID t)) (preload_keys l) = true.
Proof.
  intros Hin Hk. apply existsb_exists. exists (Todo_UserID t). split; [|apply Z.eqb_refl].
  unfold preload_keys. apply filter_In. split; [apply in_map, Hin|].
  destruct (Todo_UserID t =? 0) eqn:E; [lia | reflexivity].
Qed.

Lemma preload_keys_zero l : existsb (Z.eqb 0) (preload_keys l) = false.
Proof.
  destruct (existsb (Z.eqb 0) (preload_keys l)) eqn:E; [|reflexivity].
  apply existsb_exists in E as [k [Hin Hk]].
  unfold preload_keys in Hin. apply filter_In in Hin as [_ Hnz].
  assert (k = 0) as -> by lia. discriminate.
Qed.

(** In a well-formed store on a healthy connection, preloading gives every
    scanned todo the owner stored under its [UserID]. *)
Lemma preload_User_resolves s rs :
  wf s -> healthy s ->
  fst (preload_User (map (fun r => scan_Todo r Todo_zero) rs) s)
  = (map (resolved (rows (users s))) rs, None).
Proof.
  intros [_ Hu] Hh.
  assert (Hzero : lookup user_id 0 (rows (users s)) = None)
    by (eapply lookup_out_of_range; [exact Hu | left; lia]).
  set (l := map (fun r => scan_Todo r Todo_zero) rs).
  assert (Hres : forall found,
             (forall t, In t l ->
                lookup user_id (Todo_UserID t) found = lookup user_id (Todo_UserID t) (rows (users s))) ->
             (forall t, In t l -> assign_User found t =
                match lookup user_id (Todo_UserID t) found with
                | Some u => set_Todo_User (scan_User u User_zero) t
                | None => t
                end) ->
             map (assign_User found) l = map (resolved (rows (users s))) rs).
  { intros found Hl Ha. subst l. rewrite map_map. apply map_ext_in. intros r Hr.
    assert (Hin : In (scan_Todo r Todo_zero) (map (fun r => scan_Todo r Todo_zero) rs))
      by (apply (in_map (fun r => scan_Todo r Todo_zero)), Hr).
    rewrite (Ha _ Hin), (Hl _ Hin). unfold resolved, owner_of. simpl.
    destruct (lookup user_id (todo_user_id r) (rows (users s))); reflexivity. }
  unfold preload_User. destruct (preload_keys l) as [|k ks] eqn:Ek.
  - simpl. f_equal. rewrite <- (Hres []).
    + symmetry. rewrite <- (map_id l) at 2. apply map_ext. intros t. reflexivity.
    + intros t Hin. destruct (Todo_UserID t =? 0) eqn:E.
      * assert (Todo_UserID t = 0) as -> by lia. rewrite Hzero. reflexivity.
      * pose proof (preload_keys_In l t Hin) as Hc. rewrite Ek in Hc.
        simpl in Hc. discriminate Hc. lia.
    + intros t _. reflexivity.
  - unfold bind. rewrite (send_healthy _ Hh). cbn [fst]. f_equal. rewrite <- Ek.
    set (g := fun x => existsb (Z.eqb x) (preload_keys l)).
    assert (Hext : select_all (fun u => existsb (Z.eqb (user_id u)) (preload_keys l)) (rows (users s))
                   = select_all (fun u => g (user_id u)) (rows (users s))) by reflexivity.
    apply Hres.
    + intros t Hin. rewrite Hext, lookup_select_all. subst g. simpl.
      destruct (Todo_UserID t =? 0) eqn:E.
      * assert (Todo_UserID t = 0) as -> by lia.
        rewrite preload_keys_zero, Hzero. reflexivity.
      * rewrite (preload_keys_In l t Hin) by lia. reflexivity.
    + intros t _. eapply assign_User_lookup. apply ascending_filter. exact Hu.
Qed.




(** * Further properties of the resolvers *)

(** ** Lookups after an insert *)

Lemma lookup_snoc_new {R} (key : R -> Z) k l r :
  lookup key k l = None -> key r = k -> lookup key k (l ++ [r]) = Some r.
Proof.
  unfold lookup. intros Hl Hk. induction l as [|x l IH]; simpl in *.
  - rewrite Hk, Z.eqb_refl. reflexivity.
  - destruct (key x =? k); [discriminate | auto].
Qed.

Lemma lookup_snoc_old {R} (key : R -> Z) k l r x :
  lookup key k l = Some x -> lookup key k (l ++ [r]) = Some x.
Proof.
  unfold lookup. intros Hl. induction l as [|y l IH]; simpl in *; [discriminate|].
  destruct (key y =? k); auto.
Qed.

(** The inline condition [id = k] with [k] stored, on a healthy connection:
    the row comes back with its owner preloaded. *)
Lemma First_where_hit k r s :
  wf s -> healthy s ->
  lookup todo_id k (rows (todos s)) = Some r ->
  fst (First (Preload "User" db) Todo_zero (Some k) s) = (resolved (rows (users s)) r, None).
Proof.
  intros Hwf Hh Hl. unfold First, bind. rewrite (send_healthy _ Hh). simpl.
  unfold lookup in Hl. unfold select_first. rewrite Hl.
  pose proof (preload_User_resolves s [r] Hwf Hh) as H. simpl in H.
  change (preloads "User" (Preload "User" db)) with true. cbv iota.
  destruct (preload_User [scan_Todo r Todo_zero] s) as [[l e] s'].
  simpl in H. injection H as -> ->. reflexivity.
Qed.

(** ** Creating a user *)

(** X1. In a well-formed store on a healthy connection whose users table
    has an id left, for every name of at most 255 characters [CreateUser]
    returns without error a User with the given name, no todos, and the
    AUTO_INCREMENT value of the users table as id, which is positive and
    was stored under no row; the users table is the old one followed by
    the new row, and its counter moves up by one. *)
Theorem CreateUser_inserts :
  forall (s : Store) (name : string),
    wf s -> healthy s ->
    varchar_ok name = true ->
    int_ok (auto_increment (users s)) = true ->
    let id := auto_increment (users s) in
    let out := CreateUser {| NewUser_Name := name |} s in
    fst out = Return (Build_User id name []) None /\
    id > 0 /\
    lookup user_id id (rows (users s)) = None /\
    rows (users (snd out)) = rows (users s) ++ [{| user_id := id; user_name := name |}] /\
    auto_increment (users (snd out)) = id + 1.
Proof.
  intros s name Hwf Hh Hn Hid id out. subst out.
  rewrite (CreateUser_healthy {| NewUser_Name := name |} s Hwf Hh Hn Hid). simpl. fold id.
  destruct Hwf as [_ Hu]. repeat split.
  - pose proof (ascending_bounds user_id _ _ _ Hu). subst id. lia.
  - eapply lookup_out_of_range; [exact Hu | right; subst id; lia].
Qed.

Lemma CreateUser_inserts_witness :
  fst (CreateUser {| NewUser_Name := "Jamie" |} (mysql.Connection []))
    = Return (Build_User 1 "Jamie" []) None /\
  1 > 0 /\
  lookup user_id 1 (rows (users (mysql.Connection []))) = None /\
  rows (users (snd (CreateUser {| NewUser_Name := "Jamie" |} (mysql.Connection []))))
    = [] ++ [{| user_id := 1; user_name := "Jamie" |}] /\
  auto_increment (users (snd (CreateUser {| NewUser_Name := "Jamie" |} (mysql.Connection []))))
    = 1 + 1.
Proof.
  apply (CreateUser_inserts (mysql.Connection []) "Jamie").
  - split; reflexivity.
  - reflexivity.
  - reflexivity.
  - reflexivity.
Defined.

(** ** Listing users *)

(** X2. On a healthy connection [Users] returns without error every row of
    the users table, in table order, each as a User with its id and name
    and with no todos loaded; a second call right after the first returns
    the same list. *)
Theorem Users_returns_rows :
  forall (s : Store),
    healthy s ->
    fst (Users s)
      = Return (map (fun r => Build_User (user_id r) (user_name r) []) (rows (users s))) None /\
    fst (Users (snd (Users s))) = fst (Users s).
Proof.
  intros s Hh.
  assert (H : Users s = (Return (map (fun r => Build_User (user_id r) (user_name r) [])
                                     (rows (users s))) None, s)).
  { unfold Users, Find_Users, bind. rewrite (send_healthy _ Hh). simpl.
    rewrite select_all_rows. reflexivity. }
  rewrite H. simpl. rewrite H. split; reflexivity.
Qed.

Lemma Users_returns_rows_witness :
  fst (Users one_todo) = Return [Build_User 1 "Jamie" []] None /\
  fst (Users (snd (Users one_todo))) = fst (Users one_todo).
Proof.
  apply (Users_returns_rows one_todo). reflexivity.
Defined.

(** ** Fetching a stored todo *)

Lemma Todo_hit s id r :
  wf s -> healthy s ->
  lookup todo_id id (rows (todos s)) = Some r ->
  fst (Todo (Some {| FetchTodo_ID := id |}) s)
    = Return (Build_Todo id (todo_text r) (todo_done r) (todo_user_id r)
                (owner_of (rows (users s)) (todo_user_id r))) None.
Proof.
  intros Hwf Hh Hl.
  destruct (stored_todo_key _ _ _ Hwf Hl) as [Hid _].
  rewrite Todo_returns. simpl. rewrite (First_where_hit id r) by assumption.
  unfold resolved. simpl. rewrite Hid. reflexivity.
Qed.

(** X3. In a well-formed store on a healthy connection, [Todo] for a stored
    id returns without error the stored row, with its [User] field set to
    the user stored under its userID, or left zero when there is none. *)
Theorem Todo_returns_stored_row :
  forall (s : Store) (id : Z) (r : TodoRow),
    wf s -> healthy s ->
    lookup todo_id id (rows (todos s)) = Some r ->
    fst (Todo (Some {| FetchTodo_ID := id |}) s)
      = Return (Build_Todo id (todo_text r) (todo_done r) (todo_user_id r)
                  (owner_of (rows (users s)) (todo_user_id r))) None.
Proof.
  intros s id r Hwf Hh Hl. apply Todo_hit; assumption.
Qed.

Lemma Todo_returns_stored_row_witness :
  fst (Todo (Some {| FetchTodo_ID := 1 |}) one_todo)
    = Return (Build_Todo 1 "a" false 1 (Build_User 1 "Jamie" [])) None.
Proof.
  apply (Todo_returns_stored_row one_todo 1
           {| todo_id := 1; todo_text := "a"; todo_done := false; todo_user_id := 1 |}).
  - split; reflexivity.
  - reflexivity.
  - reflexivity.
Defined.

(** X4. Create then fetch. In a well-formed store on a healthy connection
    whose todos table has an id left, for a text of at most 255 characters
    and an owner id that fits a 32-bit signed integer, fetching the id that
    [CreateTodo] returned gives back the text and owner that were passed
    in, done = false, and the owner resolved against the users table; when
    no user has that id the todo is stored all the same and its [User]
    field is the zero value. *)
Theorem CreateTodo_then_Todo :
  forall (s : Store) (text : string) (userId : Z),
    wf s -> healthy s ->
    varchar_ok text = true -> int_ok userId = true ->
    int_ok (auto_increment (todos s)) = true ->
    let out := CreateTodo {| NewTodo_Text := text; NewTodo_UserID := userId |} s in
    exists id,
      fst out = Return (Build_Todo id text false userId User_zero) None /\
      fst (Todo (Some {| FetchTodo_ID := id |}) (snd out))
        = Return (Build_Todo id text false userId (owner_of (rows (users s)) userId)) None /\
      (lookup user_id userId (rows (users s)) = None ->
       fst (Todo (Some {| FetchTodo_ID := id |}) (snd out))
         = Return (Build_Todo id text false userId User_zero) None).
Proof.
  intros s text userId Hwf Hh Htext Huid Hid out.
  exists (auto_increment (todos s)). subst out.
  pose proof (wf_serve (createTodo {| NewTodo_Text := text; NewTodo_UserID := userId |}) s Hwf)
    as Hwf'.
  simpl in Hwf'. rewrite snd_fmap in Hwf'.
  rewrite (CreateTodo_healthy {| NewTodo_Text := text; NewTodo_UserID := userId |} s
             Hwf Hh Htext Huid Hid) in *.
  cbn [fst snd NewTodo_Text NewTodo_UserID] in *.
  assert (Hf : fst (Todo (Some {| FetchTodo_ID := auto_increment (todos s) |})
                      (with_todos {| rows := rows (todos s) ++
                                       [{| todo_id := auto_increment (todos s); todo_text := text;
                                           todo_done := false; todo_user_id := userId |}];
                                     auto_increment := auto_increment (todos s) + 1 |} s))
               = Return (Build_Todo (auto_increment (todos s)) text false userId
                           (owner_of (rows (users s)) userId)) None).
  { rewrite (Todo_hit _ _ {| todo_id := auto_increment (todos s); todo_text := text;
                              todo_done := false; todo_user_id := userId |});
      [reflexivity | exact Hwf' | exact Hh |].
    simpl. apply lookup_snoc_new; [|reflexivity].
    eapply lookup_out_of_range; [apply Hwf | right; lia]. }
  split; [reflexivity | split; [exact Hf|]].
  intros Hnone. rewrite Hf. unfold owner_of. rewrite Hnone. reflexivity.
Qed.

Lemma CreateTodo_then_Todo_witness :
  exists id,
    fst (CreateTodo {| NewTodo_Text := "a"; NewTodo_UserID := 7 |} (mysql.Connection []))
      = Return (Build_Todo id "a" false 7 User_zero) None /\
    fst (Todo (Some {| FetchTodo_ID := id |})
           (snd (CreateTodo {| NewTodo_Text := "a"; NewTodo_UserID := 7 |} (mysql.Connection []))))
      = Return (Build_Todo id "a" false 7 (owner_of (rows (users (mysql.Connection []))) 7)) None /\
    (lookup user_id 7 (rows (users (mysql.Connection []))) = None ->
     fst (Todo (Some {| FetchTodo_ID := id |})
            (snd (CreateTodo {| NewTodo_Text := "a"; NewTodo_UserID := 7 |} (mysql.Connection []))))
       = Return (Build_Todo id "a" false 7 User_zero) None).
Proof.
  apply (CreateTodo_then_Todo (mysql.Connection []) "a" 7).
  - split; reflexivity.
  - reflexivity.
  - reflexivity.
  - reflexivity.
  - reflexivity.
Defined.

(** ** How many statements a request sends *)

Lemma sends_ret {A} (a : A) : sends 0 (ret a).
Proof. intros s. exists 0%nat. split; [lia | reflexivity]. Qed.

Lemma sends_bind {A B} j k (m : M A) (f : A -> M B) :
  sends j m -> (forall a, sends k (f a)) -> sends (j + k) (bind m f).
Proof.
  intros Hm Hf s. unfold bind. destruct (Hm s) as [n [Hn En]].
  destruct (m s) as [a s'] eqn:E. simpl in En.
  destruct (Hf a s') as [n' [Hn' En']].
  exists (n + n')%nat. split; [lia|].
  rewrite En', En, skipn_skipn. f_equal. lia.
Qed.

Lemma sends_weaken {A} j k (m : M A) : (j <= k)%nat -> sends j m -> sends k m.
Proof. intros Hle Hm s. destruct (Hm s) as [n [Hn En]]. exists n. split; [lia | exact En]. Qed.

Ltac count_statements F :=
  simpl; rewrite ?F;
  first [ exists 0%nat; split; [lia | reflexivity]
        | exists 1%nat; split; [lia | reflexivity] ].

Lemma sends_send : sends 1 send.
Proof.
  intros s. unfold send. destruct (faults s) as [|e fs] eqn:F.
  - exists 0%nat. split; [lia | simpl; rewrite F; reflexivity].
  - exists 1%nat. split; [lia | reflexivity].
Qed.



Lemma sends_update_Todos pk attrs : sends 1 (update_Todos pk attrs).
Proof.
  intros s. unfold update_Todos, bind, ret, send, with_todos.
  destruct (faults s) as [|[e|] fs] eqn:F; simpl;
    try destruct (existsb _ _ && negb _); count_statements F.
Qed.


(** A transaction adds START TRANSACTION before the statement and COMMIT
    or ROLLBACK after it. *)
Lemma sends_in_transaction {A} k (stmt : M (A * error)) (u : A) :
  sends k stmt -> sends (S (S k)) (in_transaction stmt u).
Proof.
  intros Hk s. unfold in_transaction, bind.
  destruct (sends_send s) as [n0 [Hn0 E0]].
  destruct (send s) as [b s0]. simpl in E0.
  destruct b as [e|]; [exists n0; split; [lia | exact E0]|].
  destruct (Hk s0) as [n1 [Hn1 E1]].
  destruct (stmt s0) as [[a e] s1]. simpl in E1.
  destruct (sends_send s1) as [n2 [Hn2 E2]].
  destruct (send s1) as [c s2]. simpl in E2.
  exists (n0 + (n1 + n2))%nat. split; [lia|].
  assert (E : faults s2 = skipn (n0 + (n1 + n2)) (faults s))
    by (rewrite E2, E1, E0, !skipn_skipn; f_equal; lia).
  destruct e as [e|]; [exact E|]. destruct c as [c|]; exact E.
Qed.



Lemma sends_Update h attrs : sends 3 (Update h attrs).
Proof.
  unfold Update. destruct (blank_Todo attrs).
  - apply (sends_weaken 0); [lia | apply sends_ret].
  - apply (sends_bind 3 0); [apply sends_in_transaction, sends_update_Todos|].
    intros [x e]. apply sends_ret.
Qed.



Lemma sends_preload_User l : sends 1 (preload_User l).
Proof.
  intros s. unfold preload_User, bind, ret, send.
  destruct (preload_keys l); [count_statements I|].
  destruct (faults s) as [|[e|] fs] eqn:F; count_statements F.
Qed.

(** A [First] without [Preload] is one statement, one with it at most
    two. *)
Lemma sends_First h out w :
  sends (if preloads "User" h then 2 else 1) (First h out w).
Proof.
  intros s. unfold First.
  destruct (preloads "User" h) eqn:P.
  - unfold bind at 1. unfold send.
    destruct (faults s) as [|[e|] fs] eqn:F; cbn [fst snd].
    + destruct (select_first _ _) as [r|].
      * destruct (sends_preload_User [scan_Todo r out] s) as [n [Hn En]].
        unfold bind, ret. destruct (preload_User _ s) as [[l e] s']. simpl in *.
        exists n. split; [lia | rewrite En, F; reflexivity].
      * exists 0%nat. split; [lia | simpl; rewrite F; reflexivity].
    + exists 1%nat. split; [lia | reflexivity].
    + destruct (select_first _ _) as [r|].
      * destruct (sends_preload_User [scan_Todo r out]
                    {| todos := todos s; users := users s; faults := fs |}) as [n [Hn En]].
        unfold bind, ret. destruct (preload_User _ _) as [[l e] s']. simpl in *.
        exists (S n). split; [lia | exact En].
      * exists 1%nat. split; [lia | reflexivity].
  - unfold bind, ret, send.
    destruct (faults s) as [|[e|] fs] eqn:F; simpl;
      try destruct (select_first _ _); count_statements F.
Qed.




Lemma sends_UpdateTodo input : sends 4 (UpdateTodo input).
Proof.
  apply (sends_bind 1 3); [apply (sends_First db)|].
  intros [t e]. apply (sends_bind 3 0); [apply sends_Update | intros; apply sends_ret].
Qed.





(** A healthy connection is still healthy after any bounded run. *)
Lemma sends_healthy {A} k (m : M A) s : sends k m -> healthy s -> healthy (snd (m s)).
Proof.
  intros Hm Hh. destruct (Hm s) as [n [_ E]]. unfold healthy in *.
  rewrite E, Hh. apply skipn_nil.
Qed.


(** ** What an update writes *)

Lemma Update_healthy h attrs s :
  healthy s -> blank_Todo attrs = false -> attrs_ok attrs = true ->
  Update h attrs s =
  (None,
   with_todos
     {| rows := update_rows
                  (primary_condition todo_id
                     (if Todo_ID attrs =? 0 then Todo_ID (Value h) else Todo_ID attrs))
                  (assign_attrs attrs) (rows (todos s));
        auto_increment := auto_increment (todos s) |} s).
Proof.
  intros Hh Hb Hok. unfold Update. rewrite Hb.
  set (pk := if Todo_ID attrs =? 0 then Todo_ID (Value h) else Todo_ID attrs).
  assert (Hstmt : update_Todos pk attrs s
                  = ((tt, None),
                     with_todos
                       {| rows := update_rows (primary_condition todo_id pk) (assign_attrs attrs)
                                    (rows (todos s));
                          auto_increment := auto_increment (todos s) |} s)).
  { unfold update_Todos, bind. rewrite (send_healthy _ Hh). simpl.
    rewrite Hok, andb_false_r. reflexivity. }
  unfold bind. rewrite in_transaction_healthy;
    [rewrite Hstmt; reflexivity | exact Hh | rewrite Hstmt; exact Hh].
Qed.

(** A stored row that fits its columns and a text that fits give
    attributes that fit. *)
Lemma attrs_ok_loaded text u r :
  TodoRow_ok r = true -> varchar_ok text = true ->
  attrs_ok (Build_Todo (todo_id r) text (todo_done r) (todo_user_id r) u) = true.
Proof.
  unfold TodoRow_ok, attrs_ok; simpl. intros H Ht.
  apply andb_true_iff in H as [H H3]. apply andb_true_iff in H as [H1 H2].
  rewrite H1, Ht, H3. reflexivity.
Qed.

(** Writing a loaded record back changes the text of its row, and only
    when the new text is not empty. *)
Lemma assign_attrs_loaded text u r :
  todo_id r <> 0 ->
  assign_attrs (Build_Todo (todo_id r) text (todo_done r) (todo_user_id r) u) r =
  {| todo_id := todo_id r;
     todo_text := if (text =? "")%string then todo_text r else text;
     todo_done := todo_done r;
     todo_user_id := todo_user_id r |}.
Proof.
  intros Hk. unfold assign_attrs; simpl.
  destruct (todo_id r =? 0) eqn:E; [lia|].
  destruct (todo_done r); destruct (todo_user_id r =? 0); reflexivity.
Qed.

Lemma update_rows_absent k f (l : list TodoRow) :
  k <> 0 -> lookup todo_id k l = None -> update_rows (primary_condition todo_id k) f l = l.
Proof.
  intros Hk. unfold lookup, update_rows, primary_condition.
  destruct (k =? 0) eqn:E; [lia|]. clear E.
  induction l as [|x l IH]; simpl; [reflexivity|].
  destruct (todo_id x =? k); [discriminate|]. intros H. rewrite (IH H). reflexivity.
Qed.

(** On a healthy connection, updating a stored todo writes the loaded
    record back over its own row. *)
Lemma UpdateTodo_healthy s id text r :
  wf s -> healthy s ->
  lookup todo_id id (rows (todos s)) = Some r ->
  TodoRow_ok r = true -> varchar_ok text = true ->
  UpdateTodo {| EditTodo_ID := id; EditTodo_Text := text |} s =
  (Return (Build_Todo id text (todo_done r) (todo_user_id r) User_zero) None,
   with_todos
     {| rows := update_rows (primary_condition todo_id id)
                  (assign_attrs (Build_Todo id text (todo_done r) (todo_user_id r) User_zero))
                  (rows (todos s));
        auto_increment := auto_increment (todos s) |} s).
Proof.
  intros Hwf Hh Hl Hrow Htext.
  destruct (stored_todo_key _ _ _ Hwf Hl) as [Hid Hpos].
  pose proof (attrs_ok_loaded text User_zero r Hrow Htext) as Hok. rewrite Hid in Hok.
  unfold UpdateTodo, bind. cbn [EditTodo_ID EditTodo_Text].
  rewrite (First_hit _ r) by (simpl; auto; lia).
  unfold scan_Todo, set_Todo_Text. cbn [Todo_ID Todo_Text Todo_Done Todo_UserID Todo_User].
  rewrite Hid.
  assert (Hb : blank_Todo (Build_Todo id text (todo_done r) (todo_user_id r) User_zero) = false).
  { unfold blank_Todo; simpl. destruct (id =? 0) eqn:E; [lia | reflexivity]. }
  rewrite (Update_healthy _ _ _ Hh Hb Hok). cbn [Todo_ID].
  destruct (id =? 0) eqn:E; [lia|]. reflexivity.
Qed.

(** The rows after such an update: the row under [id] has the new text
    when that text is not empty, and every row is otherwise as it was. *)
Lemma lookup_after_update s id text r k :
  wf s ->
  lookup todo_id id (rows (todos s)) = Some r ->
  lookup todo_id k
    (update_rows (primary_condition todo_id id)
       (assign_attrs (Build_Todo id text (todo_done r) (todo_user_id r) User_zero))
       (rows (todos s)))
  = if k =? id
    then Some {| todo_id := id;
                 todo_text := if (text =? "")%string then todo_text r else text;
                 todo_done := todo_done r; todo_user_id := todo_user_id r |}
    else lookup todo_id k (rows (todos s)).
Proof.
  intros Hwf Hl.
  destruct (stored_todo_key _ _ _ Hwf Hl) as [Hid Hpos].
  assert (Hpc : forall x, primary_condition todo_id id x = (todo_id x =? id)).
  { intros x. unfold primary_condition. destruct (id =? 0) eqn:E; [lia | reflexivity]. }
  unfold update_rows. rewrite lookup_map.
  - destruct (k =? id) eqn:Ek.
    + assert (k = id) as -> by lia. rewrite Hl. simpl. rewrite Hpc, Hid, Z.eqb_refl.
      rewrite <- Hid at 1. rewrite <- Hid at 1.
      rewrite assign_attrs_loaded by lia. rewrite Hid. reflexivity.
    + destruct (lookup todo_id k (rows (todos s))) as [x|] eqn:Ex; [|reflexivity].
      simpl. apply lookup_Some in Ex as [Ex _]. rewrite Hpc.
      destruct (todo_id x =? id) eqn:E; [lia | reflexivity].
  - intros x _. rewrite Hpc. destruct (todo_id x =? id) eqn:E; [|reflexivity].
    unfold assign_attrs; simpl. destruct (id =? 0) eqn:E0; lia.
Qed.

(** X5. Update then fetch. In a well-formed store on a healthy connection,
    after [UpdateTodo(id, text)] on a stored todo, whose row fits its
    columns, with a non-empty text of at most 255 characters, the row under
    [id] carries the new text and the done flag and owner it had, every
    other row is as it was, and fetching [id] returns the new text. *)
Theorem UpdateTodo_then_Todo :
  forall (s : Store) (id : Z) (text : string) (r : TodoRow),
    wf s -> healthy s ->
    lookup todo_id id (rows (todos s)) = Some r ->
    TodoRow_ok r = true -> varchar_ok text = true ->
    text <> "" ->
    let s' := snd (UpdateTodo {| EditTodo_ID := id; EditTodo_Text := text |} s) in
    lookup todo_id id (rows (todos s'))
      = Some {| todo_id := id; todo_text := text; todo_done := todo_done r;
                todo_user_id := todo_user_id r |} /\
    (forall k, k <> id -> lookup todo_id k (rows (todos s')) = lookup todo_id k (rows (todos s))) /\
    users s' = users s /\
    fst (Todo (Some {| FetchTodo_ID := id |}) s')
      = Return (Build_Todo id text (todo_done r) (todo_user_id r)
                  (owner_of (rows (users s)) (todo_user_id r))) None.
Proof.
  intros s id text r Hwf Hh Hl Hok Hfit Htext s'.
  assert (Hwf' : wf s').
  { pose proof (wf_serve (updateTodo {| EditTodo_ID := id; EditTodo_Text := text |}) s Hwf) as H.
    simpl in H. rewrite snd_fmap in H. exact H. }
  assert (Hne : (text =? "")%string = false) by (apply String.eqb_neq; exact Htext).
  assert (Hrow : lookup todo_id id (rows (todos s'))
                 = Some {| todo_id := id; todo_text := text; todo_done := todo_done r;
                           todo_user_id := todo_user_id r |}).
  { subst s'. rewrite (UpdateTodo_healthy s id text r Hwf Hh Hl Hok Hfit). cbn [snd]. simpl.
    rewrite (lookup_after_update s id text r id Hwf Hl), Z.eqb_refl, Hne. reflexivity. }
  assert (Hus : users s' = users s) by apply UpdateTodo_users.
  split; [exact Hrow | split; [|split; [exact Hus|]]].
  - intros k Hk. subst s'. rewrite (UpdateTodo_healthy s id text r Hwf Hh Hl Hok Hfit). cbn [snd]. simpl.
    rewrite (lookup_after_update s id text r k Hwf Hl).
    destruct (k =? id) eqn:E; [lia | reflexivity].
  - rewrite (Todo_hit s' id {| todo_id := id; todo_text := text; todo_done := todo_done r;
                                todo_user_id := todo_user_id r |} Hwf');
      [rewrite Hus; reflexivity | | exact Hrow].
    subst s'. rewrite (UpdateTodo_healthy s id text r Hwf Hh Hl Hok Hfit). exact Hh.
Qed.

Lemma UpdateTodo_then_Todo_witness :
  lookup todo_id 1
    (rows (todos (snd (UpdateTodo {| EditTodo_ID := 1; EditTodo_Text := "b" |} one_todo))))
    = Some {| todo_id := 1; todo_text := "b"; todo_done := false; todo_user_id := 1 |} /\
  (forall k, k <> 1 ->
     lookup todo_id k
       (rows (todos (snd (UpdateTodo {| EditTodo_ID := 1; EditTodo_Text := "b" |} one_todo))))
     = lookup todo_id k (rows (todos one_todo))) /\
  users (snd (UpdateTodo {| EditTodo_ID := 1; EditTodo_Text := "b" |} one_todo)) = users one_todo /\
  fst (Todo (Some {| FetchTodo_ID := 1 |})
         (snd (UpdateTodo {| EditTodo_ID := 1; EditTodo_Text := "b" |} one_todo)))
    = Return (Build_Todo 1 "b" false 1 (owner_of (rows (users one_todo)) 1)) None.
Proof.
  apply (UpdateTodo_then_Todo one_todo 1 "b"
           {| todo_id := 1; todo_text := "a"; todo_done := false; todo_user_id := 1 |}).
  - split; reflexivity.
  - reflexivity.
  - reflexivity.
  - reflexivity.
  - reflexivity.
  - discriminate.
Defined.

(** X6. An empty new text is not written. In a well-formed store on a
    healthy connection, [UpdateTodo(id, "")] on a stored todo returns a
    Todo whose text is empty, yet both tables are exactly as before and
    fetching [id] afterwards still returns the old text. *)
Theorem UpdateTodo_empty_text_not_stored :
  forall (s : Store) (id : Z) (r : TodoRow),
    wf s -> healthy s ->
    lookup todo_id id (rows (todos s)) = Some r ->
    let out := UpdateTodo {| EditTodo_ID := id; EditTodo_Text := "" |} s in
    fst out = Return (Build_Todo id "" (todo_done r) (todo_user_id r) User_zero) None /\
    todos (snd out) = todos s /\
    users (snd out) = users s /\
    fst (Todo (Some {| FetchTodo_ID := id |}) (snd out))
      = Return (Build_Todo id (todo_text r) (todo_done r) (todo_user_id r)
                  (owner_of (rows (users s)) (todo_user_id r))) None.
Proof.
  intros s id r Hwf Hh Hl out.
  destruct (stored_todo_key _ _ _ Hwf Hl) as [Hid Hpos].
  assert (Hwf' : wf (snd out)).
  { pose proof (wf_serve (updateTodo {| EditTodo_ID := id; EditTodo_Text := "" |}) s Hwf) as H.
    simpl in H. rewrite snd_fmap in H. exact H. }
  assert (Hus : users (snd out) = users s) by apply UpdateTodo_users.
  assert (Hh' : healthy (snd out)) by (apply (sends_healthy 4); [apply sends_UpdateTodo | exact Hh]).
  assert (Hts : todos (snd out) = todos s).
  { subst out. rewrite UpdateTodo_store. cbv zeta. cbn [EditTodo_ID EditTodo_Text].
    rewrite (First_hit _ r) by (simpl; auto; lia). cbn [fst snd].
    destruct (Update_todos (Model Todo_zero db)
                (set_Todo_Text "" (scan_Todo r (Build_Todo id "" false 0 User_zero))) s)
      as (_ & Ha & [Hr|Hr]); cbv zeta in Ha, Hr;
      (apply table_eq; [|exact Ha]); [exact Hr|].
    rewrite Hr. unfold scan_Todo, set_Todo_Text.
    cbn [Todo_ID Todo_Text Todo_Done Todo_UserID Todo_User Value Model]. rewrite Hid.
    destruct (id =? 0) eqn:E00; [lia|]. unfold update_rows.
    rewrite <- (map_id (rows (todos s))) at 2. apply map_ext_in. intros x Hx.
    unfold primary_condition. destruct (id =? 0) eqn:E0; [lia|].
    destruct (todo_id x =? id) eqn:E; [|reflexivity].
    assert (x = r) as ->.
    { pose proof (lookup_In todo_id _ _ _ _ (proj1 Hwf) Hx) as L.
      assert (todo_id x = id) as Hk by lia. rewrite Hk in L. congruence. }
    rewrite <- Hid. rewrite assign_attrs_loaded by lia. destruct r; reflexivity. }
  split; [|split; [exact Hts | split; [exact Hus|]]].
  - subst out. rewrite UpdateTodo_returns. cbn [EditTodo_ID EditTodo_Text].
    rewrite (First_hit _ r) by (simpl; auto; lia).
    unfold scan_Todo, set_Todo_Text; simpl. rewrite Hid. reflexivity.
  - rewrite (Todo_hit (snd out) id r Hwf' Hh'); [rewrite Hus; reflexivity|].
    rewrite Hts. exact Hl.
Qed.

Lemma UpdateTodo_empty_text_not_stored_witness :
  fst (UpdateTodo {| EditTodo_ID := 1; EditTodo_Text := "" |} one_todo)
    = Return (Build_Todo 1 "" false 1 User_zero) None /\
  todos (snd (UpdateTodo {| EditTodo_ID := 1; EditTodo_Text := "" |} one_todo)) = todos one_todo /\
  users (snd (UpdateTodo {| EditTodo_ID := 1; EditTodo_Text := "" |} one_todo)) = users one_todo /\
  fst (Todo (Some {| FetchTodo_ID := 1 |})
         (snd (UpdateTodo {| EditTodo_ID := 1; EditTodo_Text := "" |} one_todo)))
    = Return (Build_Todo 1 "a" false 1 (owner_of (rows (users one_todo)) 1)) None.
Proof.
  apply (UpdateTodo_empty_text_not_stored one_todo 1
           {| todo_id := 1; todo_text := "a"; todo_done := false; todo_user_id := 1 |}).
  - split; reflexivity.
  - reflexivity.
  - reflexivity.
Defined.

(** ** Misses with a non-zero id *)

Lemma UpdateTodo_miss_nonzero s id text :
  id <> 0 -> lookup todo_id id (rows (todos s)) = None ->
  todos (snd (UpdateTodo {| EditTodo_ID := id; EditTodo_Text := text |} s)) = todos s.
Proof.
  intros Hk Hl. rewrite UpdateTodo_store. cbv zeta. cbn [EditTodo_ID EditTodo_Text].
  set (out := Build_Todo id "" false 0 User_zero).
  rewrite (First_miss out s) by (simpl; assumption).
  destruct (First_tables db out None s) as [Hft _].
  destruct (Update_todos (Model Todo_zero db) (set_Todo_Text text out)
              (snd (First db out None s))) as (_ & Ha & [Hr|Hr]);
    cbv zeta in Ha, Hr; rewrite Hft in Hr, Ha.
  - apply table_eq; assumption.
  - cbn [Todo_ID set_Todo_Text out] in Hr.
    destruct (id =? 0) eqn:E; [lia|].
    rewrite update_rows_absent in Hr by assumption.
    apply table_eq; assumption.
Qed.

(** X7. A miss with a non-zero id changes nothing. For every non-zero id
    that identifies no stored Todo, and whatever the connection does,
    [UpdateTodo] and [DeleteTodo] leave the todos table and the users table
    exactly as they were: no row is edited, removed or added. *)
Theorem nonzero_miss_changes_nothing :
  forall (s : Store) (id : Z) (text : string),
    id <> 0 ->
    lookup todo_id id (rows (todos s)) = None ->
    (todos (snd (UpdateTodo {| EditTodo_ID := id; EditTodo_Text := text |} s)) = todos s /\
     users (snd (UpdateTodo {| EditTodo_ID := id; EditTodo_Text := text |} s)) = users s) /\
    (todos (snd (DeleteTodo id s)) = todos s /\
     users (snd (DeleteTodo id s)) = users s).
Proof.
  intros s id text Hk Hl. split.
  - split; [apply UpdateTodo_miss_nonzero; assumption | apply UpdateTodo_users].
  - apply DeleteTodo_miss_nonzero; assumption.
Qed.

Lemma nonzero_miss_changes_nothing_witness :
  (todos (snd (UpdateTodo {| EditTodo_ID := 5; EditTodo_Text := "b" |} one_todo)) = todos one_todo /\
   users (snd (UpdateTodo {| EditTodo_ID := 5; EditTodo_Text := "b" |} one_todo)) = users one_todo) /\
  (todos (snd (DeleteTodo 5 one_todo)) = todos one_todo /\
   users (snd (DeleteTodo 5 one_todo)) = users one_todo).
Proof.
  apply (nonzero_miss_changes_nothing one_todo 5 "b").
  - lia.
  - reflexivity.
Defined.

(** ** Id 0 in [UpdateTodo] and [DeleteTodo] *)

Lemma First_zero_hit out r l s :
  healthy s -> Todo_ID out = 0 -> rows (todos s) = r :: l ->
  First db out None s = ((scan_Todo r out, None), s).
Proof.
  intros Hh Hz Hr. unfold First, bind. rewrite (send_healthy _ Hh). simpl.
  rewrite Hr, Hz. reflexivity.
Qed.

Lemma first_row_key s r l :
  wf s -> rows (todos s) = r :: l ->
  todo_id r <> 0 /\ lookup todo_id (todo_id r) l = None.
Proof.
  intros [Ht _] Hr. unfold table_ok in Ht. rewrite Hr in Ht. simpl in Ht.
  apply andb_true_iff in Ht as [H1 H2]. split; [lia|].
  eapply lookup_out_of_range; [exact H2 | left; lia].
Qed.

(** X8. Id 0 selects the first row. In a well-formed store on a healthy
    connection whose todos table is not empty, [DeleteTodo(0)] returns the
    first row of the table (the one with the least id) and removes it, and
    [UpdateTodo(0, text)] returns that row with the new text and, when the
    row fits its columns and the text has at most 255 characters, writes
    the text over it if it is not empty; the other rows stay. *)
Theorem zero_id_selects_first_row :
  forall (s : Store) (r : TodoRow) (l : list TodoRow),
    wf s -> healthy s ->
    rows (todos s) = r :: l ->
    (fst (DeleteTodo 0 s)
       = Return (Build_Todo (todo_id r) (todo_text r) (todo_done r) (todo_user_id r) User_zero) None /\
     rows (todos (snd (DeleteTodo 0 s))) = l) /\
    (forall text,
       TodoRow_ok r = true -> varchar_ok text = true ->
       fst (UpdateTodo {| EditTodo_ID := 0; EditTodo_Text := text |} s)
         = Return (Build_Todo (todo_id r) text (todo_done r) (todo_user_id r) User_zero) None /\
       rows (todos (snd (UpdateTodo {| EditTodo_ID := 0; EditTodo_Text := text |} s)))
         = {| todo_id := todo_id r;
              todo_text := if (text =? "")%string then todo_text r else text;
              todo_done := todo_done r; todo_user_id := todo_user_id r |} :: l).
Proof.
  intros s r l Hwf Hh Hr.
  destruct (first_row_key s r l Hwf Hr) as [Hk Hl].
  assert (Hpc : primary_condition todo_id (todo_id r) r = true).
  { unfold primary_condition. destruct (todo_id r =? 0); [reflexivity | apply Z.eqb_refl]. }
  split; [split | intros text Hrow Htext; split].
  - rewrite DeleteTodo_returns, (First_zero_hit _ r l) by auto. reflexivity.
  - rewrite DeleteTodo_store. cbv zeta. rewrite (First_zero_hit _ r l) by auto.
    cbn [fst snd]. rewrite Delete_healthy by assumption. cbn [snd]. simpl. rewrite Hr.
    unfold delete_rows. cbn [filter]. rewrite Hpc. cbn [negb].
    apply delete_rows_absent; assumption.
  - rewrite UpdateTodo_returns. cbn [EditTodo_ID EditTodo_Text].
    rewrite (First_zero_hit _ r l) by auto. reflexivity.
  - rewrite UpdateTodo_store. cbv zeta. cbn [EditTodo_ID EditTodo_Text].
    rewrite (First_zero_hit _ r l) by auto. cbn [fst snd].
    unfold scan_Todo, set_Todo_Text. cbn [Todo_ID Todo_Text Todo_Done Todo_UserID Todo_User].
    assert (Hb : blank_Todo (Build_Todo (todo_id r) text (todo_done r) (todo_user_id r) User_zero)
                 = false).
    { unfold blank_Todo; simpl. destruct (todo_id r =? 0) eqn:E; [lia | reflexivity]. }
    rewrite (Update_healthy _ _ _ Hh Hb (attrs_ok_loaded text User_zero r Hrow Htext)).
    cbn [snd Todo_ID]. simpl rows.
    destruct (todo_id r =? 0) eqn:E; [lia|]. rewrite Hr.
    unfold update_rows. cbn [map]. rewrite Hpc.
    rewrite assign_attrs_loaded by assumption. f_equal.
    apply update_rows_absent; assumption.
Qed.

Lemma zero_id_selects_first_row_witness :
  (fst (DeleteTodo 0 one_todo) = Return (Build_Todo 1 "a" false 1 User_zero) None /\
   rows (todos (snd (DeleteTodo 0 one_todo))) = []) /\
  (forall text,
     TodoRow_ok {| todo_id := 1; todo_text := "a"; todo_done := false; todo_user_id := 1 |} = true ->
     varchar_ok text = true ->
     fst (UpdateTodo {| EditTodo_ID := 0; EditTodo_Text := text |} one_todo)
       = Return (Build_Todo 1 text false 1 User_zero) None /\
     rows (todos (snd (UpdateTodo {| EditTodo_ID := 0; EditTodo_Text := text |} one_todo)))
       = {| todo_id := 1; todo_text := if (text =? "")%string then "a" else text;
            todo_done := false; todo_user_id := 1 |} :: []).
Proof.
  apply (zero_id_selects_first_row one_todo
           {| todo_id := 1; todo_text := "a"; todo_done := false; todo_user_id := 1 |} []).
  - split; reflexivity.
  - reflexivity.
  - reflexivity.
Defined.

(** ** Invariants of the stores a server can reach *)

(** X9. Whatever requests are served on a fresh database, and whatever the
    connection does meanwhile, the primary keys stay sound in both tables:
    every stored id is positive and below the table's AUTO_INCREMENT
    counter, and looking an id up finds the row that carries it, so no two
    rows share an id. *)
Theorem reachable_keys_sound :
  forall (fs : list error) (qs : list Request),
    let s := serve_all qs (mysql.Connection fs) in
    (forall r, In r (rows (todos s)) ->
       0 < todo_id r < auto_increment (todos s) /\
       lookup todo_id (todo_id r) (rows (todos s)) = Some r) /\
    (forall u, In u (rows (users s)) ->
       0 < user_id u < auto_increment (users s) /\
       lookup user_id (user_id u) (rows (users s)) = Some u).
Proof.
  intros fs qs s. destruct (reachable_wf fs qs) as [Ht Hu]. fold s in Ht, Hu.
  split; intros x Hx.
  - split; [eapply ascending_In; eassumption | eapply lookup_In; eassumption].
  - split; [eapply ascending_In; eassumption | eapply lookup_In; eassumption].
Qed.

Lemma reachable_keys_sound_witness :
  0 < 1 < auto_increment (todos one_todo) /\
  lookup todo_id 1 (rows (todos one_todo))
  = Some {| todo_id := 1; todo_text := "a"; todo_done := false; todo_user_id := 1 |}.
Proof.
  exact (proj1 (reachable_keys_sound []
                  [createUser {| NewUser_Name := "Jamie" |};
                   createTodo {| NewTodo_Text := "a"; NewTodo_UserID := 1 |}])
           {| todo_id := 1; todo_text := "a"; todo_done := false; todo_user_id := 1 |}
           (or_introl eq_refl)).
Defined.

Lemma DeleteTodo_healthy s id r :
  wf s -> healthy s ->
  lookup todo_id id (rows (todos s)) = Some r ->
  snd (DeleteTodo id s) =
  with_todos {| rows := delete_rows (primary_condition todo_id id) (rows (todos s));
                auto_increment := auto_increment (todos s) |} s.
Proof.
  intros Hwf Hh Hl.
  destruct (stored_todo_key _ _ _ Hwf Hl) as [Hid Hpos].
  rewrite DeleteTodo_store. cbv zeta.
  rewrite (First_hit _ r) by (simpl; auto; lia). cbn [fst snd].
  rewrite Delete_healthy by assumption. cbn [snd]. simpl. rewrite Hid. reflexivity.
Qed.

(** X10. Deleted ids are not reused. In a well-formed store on a healthy
    connection, once [DeleteTodo(id)] has removed a stored todo, no
    sequence of later requests stores a todo under [id] again. *)
Theorem deleted_id_never_reused :
  forall (s : Store) (id : Z) (r : TodoRow) (qs : list Request),
    wf s -> healthy s ->
    lookup todo_id id (rows (todos s)) = Some r ->
    lookup todo_id id (rows (todos (serve_all qs (snd (DeleteTodo id s))))) = None.
Proof.
  intros s id r qs Hwf Hh Hl.
  destruct (stored_todo_key _ _ _ Hwf Hl) as [Hid Hpos].
  assert (Hwf' : wf (snd (DeleteTodo id s))).
  { pose proof (wf_serve (deleteTodo id) s Hwf) as H.
    simpl in H. rewrite snd_fmap in H. exact H. }
  apply absent_stays_absent; [exact Hwf' | |];
    rewrite (DeleteTodo_healthy s id r Hwf Hh Hl); simpl; [lia|].
  rewrite lookup_delete_primary.
  destruct (id =? 0); [reflexivity|]. rewrite Z.eqb_refl. reflexivity.
Qed.

Lemma deleted_id_never_reused_witness :
  lookup todo_id 1 (rows (todos (serve_all busy_requests (snd (DeleteTodo 1 one_todo))))) = None.
Proof.
  apply (deleted_id_never_reused one_todo 1
           {| todo_id := 1; todo_text := "a"; todo_done := false; todo_user_id := 1 |}
           busy_requests).
  - split; reflexivity.
  - reflexivity.
  - reflexivity.
Defined.

(** Every request leaves the users table as it was or adds one row at its
    end. *)
Lemma serve_users_grow q s :
  wf s ->
  rows (users (snd (serve q s))) = rows (users s) \/
  exists u, rows (users (snd (serve q s))) = rows (users s) ++ [u].
Proof.
  intros Hwf. destruct q; simpl; rewrite snd_fmap.
  - left. rewrite CreateTodo_users. reflexivity.
  - left. rewrite UpdateTodo_users. reflexivity.
  - left. rewrite DeleteTodo_users. reflexivity.
  - destruct Hwf as [_ Hu]. unfold CreateUser, Create_User.
    set (value := Build_User 0 (NewUser_Name input) []).
    destruct (in_transaction_tables (insert_User value) value s) as (s0 & Ht0 & Hu0 & H).
    assert (Hu' : table_ok user_id (users s0) = true) by (rewrite Hu0; exact Hu).
    destruct (insert_User_tables value s0 Hu' eq_refl) as (Ht1 & Hr1).
    cbv zeta in H, Hr1. unfold bind.
    destruct (in_transaction (insert_User value) value s) as [[x e] s']. simpl in *.
    rewrite Hu0 in *.
    destruct H as [[_ ->]|[[_ ->]|[_ ->]]]; auto.
    destruct Hr1 as [->|(r & Hr & Hk & Ha)]; [auto | right; eauto].
  - left. rewrite (proj2 (Todos_tables s)). reflexivity.
  - left. rewrite (proj2 (Users_tables s)). reflexivity.
  - left. rewrite (proj2 (Todo_tables input s)). reflexivity.
Qed.

(** X11. Users are never removed or edited. From a well-formed store and
    along every sequence of requests, whatever the connection does, a user
    stored under an id is still stored under it afterwards, with the same
    name. *)
Theorem users_are_kept :
  forall (s : Store) (qs : list Request) (k : Z) (u : UserRow),
    wf s ->
    lookup user_id k (rows (users s)) = Some u ->
    lookup user_id k (rows (users (serve_all qs s))) = Some u.
Proof.
  intros s qs k u. revert s. induction qs as [|q qs IH]; simpl; intros s Hwf Hl; [assumption|].
  apply IH; [apply wf_serve, Hwf|].
  destruct (serve_users_grow q s Hwf) as [->|[v ->]]; [assumption|].
  apply lookup_snoc_old, Hl.
Qed.

Lemma users_are_kept_witness :
  lookup user_id 1 (rows (users (serve_all busy_requests one_todo)))
  = Some {| user_id := 1; user_name := "Jamie" |}.
Proof.
  apply (users_are_kept one_todo busy_requests 1).
  - split; reflexivity.
  - reflexivity.
Defined.

(** ** When the connection fails *)

(** X12. A failed INSERT stores nothing. When START TRANSACTION is
    executed and the connection fails on the INSERT of [CreateTodo] or
    [CreateUser], both tables are as before, the resolver returns the
    struct it built with id 0 and a nil error, and three statements were
    sent, the third being ROLLBACK: the INSERT is not tried again. When
    START TRANSACTION itself fails, the outcome is the same after that one
    statement. *)
Theorem failed_insert_stores_nothing :
  forall (s : Store) (e : Error) (fs : list error),
    (faults s = None :: Some e :: fs ->
     (forall text userId,
        CreateTodo {| NewTodo_Text := text; NewTodo_UserID := userId |} s
        = (Return (Build_Todo 0 text false userId User_zero) None,
           {| todos := todos s; users := users s; faults := tl fs |})) /\
     (forall name,
        CreateUser {| NewUser_Name := name |} s
        = (Return (Build_User 0 name []) None,
           {| todos := todos s; users := users s; faults := tl fs |}))) /\
    (faults s = Some e :: fs ->
     (forall text userId,
        CreateTodo {| NewTodo_Text := text; NewTodo_UserID := userId |} s
        = (Return (Build_Todo 0 text false userId User_zero) None,
           {| todos := todos s; users := users s; faults := fs |})) /\
     (forall name,
        CreateUser {| NewUser_Name := name |} s
        = (Return (Build_User 0 name []) None,
           {| todos := todos s; users := users s; faults := fs |}))).
Proof.
  intros s e fs. split; intros Hf; split; intros;
    unfold CreateTodo, CreateUser, Create_Todo, Create_User, in_transaction,
      insert_Todo, insert_User, bind, ret, send;
    rewrite Hf; simpl; try (destruct fs); reflexivity.
Qed.

Lemma failed_insert_stores_nothing_witness :
  (forall text userId,
     CreateTodo {| NewTodo_Text := text; NewTodo_UserID := userId |} broken
     = (Return (Build_Todo 0 text false userId User_zero) None,
        {| todos := todos broken; users := users broken; faults := [] |})) /\
  (forall name,
     CreateUser {| NewUser_Name := name |} broken
     = (Return (Build_User 0 name []) None,
        {| todos := todos broken; users := users broken; faults := [] |})).
Proof.
  apply (proj2 (failed_insert_stores_nothing broken (ErrDriver "invalid connection") [])).
  reflexivity.
Defined.

Lemma First_fails h out w e fs s :
  faults s = Some e :: fs ->
  First h out w s = ((out, Some e), {| todos := todos s; users := users s; faults := fs |}).
Proof. intros Hf. unfold First, bind, ret, send. rewrite Hf. reflexivity. Qed.

(** With the next three statements executed, the DELETE and the UPDATE of
    a call take effect. *)
Lemma Delete_executes h value t u fs :
  next_ok 3 fs = true ->
  rows (todos (snd (Delete h value {| todos := t; users := u; faults := fs |})))
  = delete_rows (primary_condition todo_id (Todo_ID value)) (rows t).
Proof.
  unfold Delete, in_transaction, delete_Todos, bind, ret, send, next_ok.
  destruct fs as [|[?|] [|[?|] [|[?|] ?]]]; simpl; intros H; try discriminate; reflexivity.
Qed.

Lemma Update_executes h attrs t u fs :
  next_ok 3 fs = true -> blank_Todo attrs = false -> attrs_ok attrs = true ->
  rows (todos (snd (Update h attrs {| todos := t; users := u; faults := fs |})))
  = update_rows
      (primary_condition todo_id
         (if Todo_ID attrs =? 0 then Todo_ID (Value h) else Todo_ID attrs))
      (assign_attrs attrs) (rows t).
Proof.
  intros H Hb Hok.
  unfold Update, in_transaction, update_Todos, bind, ret, send, next_ok in *. rewrite Hb.
  destruct fs as [|[?|] [|[?|] [|[?|] ?]]]; simpl in *; try discriminate;
    rewrite Hok, andb_false_r; reflexivity.
Qed.

(** X13. The delete goes ahead without the snapshot. When the connection
    fails on the SELECT of [DeleteTodo(id)] and executes the three
    statements after it (START TRANSACTION, DELETE, COMMIT), for a
    stored todo with non-zero id the row is removed all the same, the other
    rows stay, and the Todo returned, with a nil error, is not the deleted
    record: it has the id asked for and every other field zero. *)
Theorem DeleteTodo_after_failed_load :
  forall (s : Store) (id : Z) (r : TodoRow),
    load_fails s -> id <> 0 ->
    lookup todo_id id (rows (todos s)) = Some r ->
    fst (DeleteTodo id s) = Return (Build_Todo id "" false 0 User_zero) None /\
    lookup todo_id id (rows (todos (snd (DeleteTodo id s)))) = None /\
    (forall k, k <> id ->
       lookup todo_id k (rows (todos (snd (DeleteTodo id s)))) = lookup todo_id k (rows (todos s))).
Proof.
  intros s id r (e & fs & Hf & Hn) Hk Hl.
  assert (Hs : rows (todos (snd (DeleteTodo id s)))
               = delete_rows (primary_condition todo_id id) (rows (todos s))).
  { rewrite DeleteTodo_store. cbv zeta. rewrite (First_fails _ _ _ e fs) by assumption.
    cbn [fst snd]. rewrite Delete_executes by assumption. reflexivity. }
  split; [|split].
  - rewrite DeleteTodo_returns, (First_fails _ _ _ e fs) by assumption. reflexivity.
  - rewrite Hs, lookup_delete_primary.
    destruct (id =? 0); [reflexivity|]. rewrite Z.eqb_refl. reflexivity.
  - intros k Hne. rewrite Hs, lookup_delete_primary.
    destruct (id =? 0) eqn:E; [lia|]. destruct (k =? id) eqn:E'; [lia | reflexivity].
Qed.

Lemma DeleteTodo_after_failed_load_witness :
  fst (DeleteTodo 1 one_todo_flaky) = Return (Build_Todo 1 "" false 0 User_zero) None /\
  lookup todo_id 1 (rows (todos (snd (DeleteTodo 1 one_todo_flaky)))) = None /\
  (forall k, k <> 1 ->
     lookup todo_id k (rows (todos (snd (DeleteTodo 1 one_todo_flaky))))
     = lookup todo_id k (rows (todos one_todo_flaky))).
Proof.
  apply (DeleteTodo_after_failed_load one_todo_flaky 1
           {| todo_id := 1; todo_text := "a"; todo_done := false; todo_user_id := 1 |}).
  - exists (ErrDriver "invalid connection"), []. split; reflexivity.
  - lia.
  - reflexivity.
Defined.

(** X14. The update goes ahead without the record. When the connection
    fails on the SELECT of [UpdateTodo(id, text)] and executes the three
    statements after it (START TRANSACTION, UPDATE, COMMIT), for a stored
    todo with non-zero id that fits the [int] column and a non-empty text
    of at most 255 characters the row gets the new text and keeps its done
    flag and owner, while the Todo returned, with a nil error, has
    done = false and userID = 0 whatever the row holds. *)
Theorem UpdateTodo_after_failed_load :
  forall (s : Store) (id : Z) (text : string) (r : TodoRow),
    load_fails s -> id <> 0 -> text <> "" ->
    int_ok id = true -> varchar_ok text = true ->
    lookup todo_id id (rows (todos s)) = Some r ->
    let out := UpdateTodo {| EditTodo_ID := id; EditTodo_Text := text |} s in
    fst out = Return (Build_Todo id text false 0 User_zero) None /\
    lookup todo_id id (rows (todos (snd out)))
      = Some {| todo_id := id; todo_text := text; todo_done := todo_done r;
                todo_user_id := todo_user_id r |}.
Proof.
  intros s id text r (e & fs & Hf & Hn) Hk Htext Hint Hfit Hl out.
  assert (Hne : (text =? "")%string = false) by (apply String.eqb_neq; exact Htext).
  assert (Hs : rows (todos (snd out))
               = update_rows (primary_condition todo_id id)
                   (assign_attrs (Build_Todo id text false 0 User_zero)) (rows (todos s))).
  { subst out. rewrite UpdateTodo_store. cbv zeta. cbn [EditTodo_ID EditTodo_Text].
    rewrite (First_fails _ _ _ e fs) by assumption. cbn [fst snd].
    unfold set_Todo_Text. cbn [Todo_ID Todo_Text Todo_Done Todo_UserID Todo_User].
    rewrite Update_executes; [| exact Hn | | ].
    - cbn [Todo_ID]. destruct (id =? 0) eqn:E; [lia | reflexivity].
    - unfold blank_Todo. cbn [Todo_ID]. destruct (id =? 0) eqn:E; [lia | reflexivity].
    - unfold attrs_ok. cbn [Todo_ID Todo_Text Todo_UserID]. rewrite Hint, Hfit. reflexivity. }
  split.
  - subst out. rewrite UpdateTodo_returns. cbn [EditTodo_ID EditTodo_Text].
    rewrite (First_fails _ _ _ e fs) by assumption. reflexivity.
  - rewrite Hs. unfold update_rows. rewrite lookup_map.
    + rewrite Hl. simpl. apply lookup_Some in Hl as [Hid _].
      unfold primary_condition, assign_attrs. simpl.
      destruct (id =? 0) eqn:E; [lia|]. rewrite Hid, Z.eqb_refl, Hne. reflexivity.
    + intros x _. unfold primary_condition, assign_attrs.
      destruct (id =? 0) eqn:E; [lia|].
      destruct (todo_id x =? id) eqn:E'; simpl; [rewrite E; lia | reflexivity].
Qed.

Lemma UpdateTodo_after_failed_load_witness :
  fst (UpdateTodo {| EditTodo_ID := 1; EditTodo_Text := "b" |} one_todo_flaky)
    = Return (Build_Todo 1 "b" false 0 User_zero) None /\
  lookup todo_id 1
    (rows (todos (snd (UpdateTodo {| EditTodo_ID := 1; EditTodo_Text := "b" |} one_todo_flaky))))
    = Some {| todo_id := 1; todo_text := "b"; todo_done := false; todo_user_id := 1 |}.
Proof.
  apply (UpdateTodo_after_failed_load one_todo_flaky 1 "b"
           {| todo_id := 1; todo_text := "a"; todo_done := false; todo_user_id := 1 |}).
  - exists (ErrDriver "invalid connection"), []. split; reflexivity.
  - lia.
  - discriminate.
  - reflexivity.
  - reflexivity.
  - reflexivity.
Defined.

(** ** Queries on a failing connection *)

(** X16. A failed query looks like an empty answer. When the connection
    fails on the SELECT, [Todos] and [Users] return the empty list and
    [Todo] returns the zero-value Todo, each with a nil error, whatever the
    tables hold: the caller cannot tell the failure from an empty table or
    a miss. *)
Theorem failed_query_looks_empty :
  forall (s : Store) (e : Error) (fs : list error),
    faults s = Some e :: fs ->
    fst (Todos s) = Return [] None /\
    fst (Users s) = Return [] None /\
    (forall input, fst (Todo (Some input) s) = Return Todo_zero None).
Proof.
  intros s e fs Hf. repeat split.
  - unfold Todos, Find_Todos, bind, ret, send. rewrite Hf. reflexivity.
  - unfold Users, Find_Users, bind, ret, send. rewrite Hf. reflexivity.
  - intros input. rewrite Todo_returns, (First_fails _ _ _ e fs) by assumption. reflexivity.
Qed.

Lemma failed_query_looks_empty_witness :
  fst (Todos one_todo_flaky) = Return [] None /\
  fst (Users one_todo_flaky) = Return [] None /\
  (forall input, fst (Todo (Some input) one_todo_flaky) = Return Todo_zero None).
Proof.
  apply (failed_query_looks_empty one_todo_flaky (ErrDriver "invalid connection") []).
  reflexivity.
Defined.

(** X17. A failed preload leaves the owners empty. When the SELECT on todos
    is executed and the connection fails on the statement after it,
    [Todos] returns every stored row with a nil error and with a
    zero-value [User] in each, whether or not the owner exists. *)
Theorem Todos_after_failed_preload :
  forall (s : Store) (e : Error) (fs : list error),
    faults s = None :: Some e :: fs ->
    fst (Todos s)
      = Return (map (fun r => Build_Todo (todo_id r) (todo_text r) (todo_done r)
                                (todo_user_id r) User_zero) (rows (todos s))) None.
Proof.
  intros s e fs Hf. unfold Todos, Find_Todos. unfold bind at 1 2. unfold send. rewrite Hf.
  cbn [fst snd todos users faults]. rewrite select_all_rows.
  change (preloads "User" (Preload "User" db)) with true. cbv iota.
  unfold preload_User.
  destruct (preload_keys _); unfold bind, ret, send; reflexivity.
Qed.

Lemma Todos_after_failed_preload_witness :
  fst (Todos {| todos := todos one_todo; users := users one_todo;
                faults := [None; Some (ErrDriver "invalid connection")] |})
    = Return [Build_Todo 1 "a" false 1 User_zero] None.
Proof.
  apply (Todos_after_failed_preload
           {| todos := todos one_todo; users := users one_todo;
              faults := [None; Some (ErrDriver "invalid connection")] |}
           (ErrDriver "invalid connection") []).
  reflexivity.
Defined.

(** ** Deleting twice *)

(** X18. In a well-formed store on a healthy connection, a second
    [DeleteTodo(id)] after the first changes neither table and returns,
    with a nil error, a Todo that holds the id and nothing else: the
    snapshot is returned by the first call only. *)
Theorem DeleteTodo_twice :
  forall (s : Store) (id : Z) (r : TodoRow),
    wf s -> healthy s ->
    lookup todo_id id (rows (todos s)) = Some r ->
    let s' := snd (DeleteTodo id s) in
    fst (DeleteTodo id s') = Return (Build_Todo id "" false 0 User_zero) None /\
    todos (snd (DeleteTodo id s')) = todos s' /\
    users (snd (DeleteTodo id s')) = users s'.
Proof.
  intros s id r Hwf Hh Hl s'.
  destruct (stored_todo_key _ _ _ Hwf Hl) as [Hid Hpos].
  assert (Hk : id <> 0) by lia.
  assert (Hgone : lookup todo_id id (rows (todos s')) = None).
  { subst s'. rewrite (DeleteTodo_healthy s id r Hwf Hh Hl). simpl.
    rewrite lookup_delete_primary.
    destruct (id =? 0); [reflexivity|]. rewrite Z.eqb_refl. reflexivity. }
  split.
  - rewrite DeleteTodo_returns, First_miss by assumption. reflexivity.
  - apply DeleteTodo_miss_nonzero; assumption.
Qed.

Lemma DeleteTodo_twice_witness :
  fst (DeleteTodo 1 (snd (DeleteTodo 1 one_todo)))
    = Return (Build_Todo 1 "" false 0 User_zero) None /\
  todos (snd (DeleteTodo 1 (snd (DeleteTodo 1 one_todo)))) = todos (snd (DeleteTodo 1 one_todo)) /\
  users (snd (DeleteTodo 1 (snd (DeleteTodo 1 one_todo)))) = users (snd (DeleteTodo 1 one_todo)).
Proof.
  apply (DeleteTodo_twice one_todo 1
           {| todo_id := 1; todo_text := "a"; todo_done := false; todo_user_id := 1 |}).
  - split; reflexivity.
  - reflexivity.
  - reflexivity.
Defined.
